(** * Sparse matrix engine (main.py): embedding and verification

    The Python class [SparseMatrix] of main.py is embedded as follows.

    - Python [int] is [Z] (arbitrary precision; the interpreter's optional
      limit on the number of digits converted between [int] and [str] is not
      part of the model).
    - Python [str] is [string]; the text is taken to be ASCII, so the
      Unicode-only spaces and digits that [str.strip] and [int] also accept
      do not occur.
    - A Python [dict] is an insertion-ordered association list with unique
      keys: assignment to a present key keeps its position, assignment to
      a new key appends, [pop] removes.  Iteration follows that order.
    - Matrix objects live in a heap and are named by references, methods are
      computations of a state-and-exception monad, so that mutation
      ([set]), aliasing of operands and allocation of results are explicit.
    - Exceptions carry the class and the message they are raised with. *)

From Stdlib Require Import ZArith String Ascii DecimalString DecimalZ Lia.
From stdpp Require Import base list strings sorting.

Open Scope Z_scope.

(** ** Python built-ins used by main.py *)

Module Py.

(** [str.isspace] on ASCII: TAB..CR, FS..US and SPACE; this is the set
    [str.strip()] removes. *)
Definition isspace (c : ascii) : bool :=
  let n := nat_of_ascii c in
  ((9 <=? n) && (n <=? 13) || (28 <=? n) && (n <=? 32))%nat.

(** The spaces [int(...)] skips around a literal: TAB..CR and SPACE only. *)
Definition int_space (c : ascii) : bool :=
  let n := nat_of_ascii c in
  ((9 <=? n) && (n <=? 13) || (n =? 32))%nat.

Definition isdigit (c : ascii) : bool :=
  let n := nat_of_ascii c in ((48 <=? n) && (n <=? 57))%nat.

Definition digit_val (c : ascii) : Z := Z.of_nat (nat_of_ascii c) - 48.

Fixpoint lstrip_by (sp : ascii -> bool) (s : string) : string :=
  match s with
  | EmptyString => EmptyString
  | String c s' => if sp c then lstrip_by sp s' else s
  end.

Fixpoint rstrip_by (sp : ascii -> bool) (s : string) : string :=
  match s with
  | EmptyString => EmptyString
  | String c s' =>
      match rstrip_by sp s' with
      | EmptyString => if sp c then EmptyString else String c EmptyString
      | t => String c t
      end
  end.

(** [s.strip()] *)
Definition strip (s : string) : string := rstrip_by isspace (lstrip_by isspace s).

(** [s.startswith(p)] *)
Definition startswith (s p : string) : bool := String.prefix p s.

(** [s.endswith(p)] *)
Fixpoint endswith (s p : string) : bool :=
  if String.eqb s p then true
  else match s with
       | EmptyString => false
       | String _ s' => endswith s' p
       end.

(** [s.split(sep)] for a one-character separator. *)
Fixpoint split (sep : ascii) (s : string) : list string :=
  match s with
  | EmptyString => [EmptyString]
  | String c s' =>
      if Ascii.eqb c sep then EmptyString :: split sep s'
      else match split sep s' with
           | piece :: rest => String c piece :: rest
           | [] => [String c EmptyString]
           end
  end.

(** ["\n".join(l)] and friends. *)
Fixpoint join (sep : string) (l : list string) : string :=
  match l with
  | [] => EmptyString
  | [x] => x
  | x :: l' => x +:+ sep +:+ join sep l'
  end.

Definition tail (s : string) : string :=
  match s with EmptyString => EmptyString | String _ s' => s' end.

Fixpoint init (s : string) : string :=
  match s with
  | EmptyString => EmptyString
  | String c s' =>
      match s' with EmptyString => EmptyString | _ => String c (init s') end
  end.

(** [s[1:-1]] *)
Definition slice_1_m1 (s : string) : string := init (tail s).

Definition newline : ascii := "010"%char.

(** Iterating a text file: the lines, each with its terminating newline
    (the last one without, when the text does not end in a newline). *)
Fixpoint readlines (s : string) : list string :=
  match s with
  | EmptyString => []
  | String c s' =>
      if Ascii.eqb c newline then String c EmptyString :: readlines s'
      else match s' with
           | EmptyString => [String c EmptyString]
           | _ => match readlines s' with
                  | line :: rest => String c line :: rest
                  | [] => [String c EmptyString]
                  end
           end
  end.

(** The digits of an [int] literal in base 10: at least one digit, single
    underscores allowed between digits.  [seen] tells whether the previous
    character was a digit. *)
Fixpoint digits (acc : Z) (seen : bool) (s : string) : option Z :=
  match s with
  | EmptyString => if seen then Some acc else None
  | String c s' =>
      if isdigit c then digits (10 * acc + digit_val c) true s'
      else if Ascii.eqb c "_" then (if seen then digits acc false s' else None)
      else None
  end.

(** [int(s)]: [None] stands for the [ValueError] it raises. *)
Definition int (s : string) : option Z :=
  match rstrip_by int_space (lstrip_by int_space s) with
  | String c d =>
      if Ascii.eqb c "+" then digits 0 false d
      else if Ascii.eqb c "-" then Z.opp <$> digits 0 false d
      else digits 0 false (String c d)
  | EmptyString => None
  end.

(** [str(z)] for an [int]. *)
Definition str (z : Z) : string := NilZero.string_of_int (Z.to_int z).

(** *** dict: insertion-ordered association list *)

Section Dict.
Context {K V : Type} `{EqDecision K}.

Definition dict := list (K * V).

(** [d.get(k)], [k in d], [d[k]] *)
Fixpoint dict_get (d : dict) (k : K) : option V :=
  match d with
  | [] => None
  | (k', v) :: d' => if decide (k = k') then Some v else dict_get d' k
  end.

(** [d[k] = v] *)
Fixpoint dict_setitem (d : dict) (k : K) (v : V) : dict :=
  match d with
  | [] => [(k, v)]
  | (k', v') :: d' =>
      if decide (k = k') then (k, v) :: d' else (k', v') :: dict_setitem d' k v
  end.

(** [d.pop(k, None)] *)
Fixpoint dict_pop (d : dict) (k : K) : dict :=
  match d with
  | [] => []
  | (k', v') :: d' =>
      if decide (k = k') then d' else (k', v') :: dict_pop d' k
  end.

(** [list(d)]: the keys in iteration order. *)
Definition dict_keys (d : dict) : list K := d.*1.
End Dict.

Arguments dict : clear implicits.

(** Order of tuples [(r, c)]: lexicographic. *)
Definition tuple_le (a b : Z * Z) : Prop :=
  a.1 < b.1 \/ (a.1 = b.1 /\ a.2 <= b.2).

#[global] Instance tuple_le_dec (a b : Z * Z) : Decision (tuple_le a b).
Proof. unfold tuple_le. apply _. Defined.

(** [sorted(l)] on a list of coordinate tuples. *)
Definition sorted (l : list (Z * Z)) : list (Z * Z) := merge_sort tuple_le l.

End Py.

(** ** Objects, heap and the monad of methods *)

Definition coord : Type := Z * Z.

(** An instance of [class SparseMatrix]: its three attributes. *)
Record SparseMatrix : Type := mkSparseMatrix {
  rows : Z;
  cols : Z;
  data : Py.dict coord Z   (* {(row, col): value} *)
}.

(** References to matrix objects; the heap holds every object allocated so
    far, a new object takes the next free index. *)
Definition ref : Type := nat.
Definition heap : Type := list SparseMatrix.

Inductive exn : Type :=
  | ValueError (msg : string)
  | IndexError (msg : string)
  | KeyError (msg : string)
  | AttributeError (msg : string)
  | Exception (msg : string).

Inductive outcome (A : Type) : Type :=
  | Ok (a : A)
  | Raise (e : exn).
Arguments Ok {A} a.
Arguments Raise {A} e.

Definition M (A : Type) : Type := heap -> outcome A * heap.

Definition ret {A} (a : A) : M A := fun h => (Ok a, h).
Definition raise {A} (e : exn) : M A := fun h => (Raise e, h).
Definition bind {A B} (m : M A) (f : A -> M B) : M B :=
  fun h => match m h with
           | (Ok a, h') => f a h'
           | (Raise e, h') => (Raise e, h')
           end.

Declare Scope py_scope.
Delimit Scope py_scope with py.
Notation "x <- m ;; k" := (bind m (fun x => k))
  (at level 100, m at next level, right associativity) : py_scope.
Notation "m ;; k" := (bind m (fun _ => k))
  (at level 100, right associativity) : py_scope.
Open Scope py_scope.

(** [for x in l: body(x)].  The list is what the iterated dictionary holds
    when the loop starts; no loop of the class writes to the dictionary it
    iterates (it writes to the result, a new object), so this is what Python
    iterates. *)
Fixpoint for_ {A} (l : list A) (body : A -> M unit) : M unit :=
  match l with
  | [] => ret tt
  | x :: l' => body x ;; for_ l' body
  end.

(** Attribute access [o.rows], [o.cols], [o.data] goes through the heap; a
    reference to nothing has no attributes (Python has no such reference;
    the case only keeps the model total). *)
Definition deref (o : ref) : M SparseMatrix :=
  fun h => match h !! o with
           | Some m => (Ok m, h)
           | None => (Raise (AttributeError "object has no attribute"), h)
           end.

(** In-place update of the dictionary [o.data]. *)
Definition update_data (o : ref) (f : Py.dict coord Z -> Py.dict coord Z) : M unit :=
  fun h => match h !! o with
           | Some m => (Ok tt, <[o := mkSparseMatrix (rows m) (cols m) (f (data m))]> h)
           | None => (Raise (AttributeError "object has no attribute"), h)
           end.

(** The failures of the spec's taxonomy, as main.py raises them: every
    failure of a body line, malformed or out of bounds, is the one
    [ValueError("Invalid file format")]. *)
Definition SourceUnavailable (e : string) : exn := Exception ("Failed to open file: " +:+ e).
Definition MalformedHeader : exn := ValueError "Input file has wrong format".
Definition MalformedEntry : exn := ValueError "Invalid file format".
Definition EntryOutOfBounds : exn := ValueError "Invalid file format".
Definition IndexOutOfBounds : exn := IndexError "Invalid matrix index".
Definition DimensionMismatch : exn := ValueError "Matrix dimensions must match".
Definition DimensionAlignmentMismatch : exn :=
  ValueError "Matrix dimensions not aligned for multiplication".

(** ** class SparseMatrix *)

(** [SparseMatrix(rows, cols)]: allocate, then [__init__]. *)
Definition __init__ (rows cols : Z) : M ref :=
  fun h => (Ok (length h), h ++ [mkSparseMatrix rows cols []]).

(** [def get(self, row, col)] *)
Definition get (self : ref) (row col : Z) : M Z :=
  m <- deref self ;;
  ret (default 0 (Py.dict_get (data m) (row, col))).

Definition in_range (m : SparseMatrix) (row col : Z) : bool :=
  (0 <=? row) && (row <? rows m) && ((0 <=? col) && (col <? cols m)).

(** [def set(self, row, col, value)] *)
Definition set (self : ref) (row col value : Z) : M unit :=
  m <- deref self ;;
  if negb (in_range m row col) then raise (IndexError "Invalid matrix index")
  else if value =? 0 then update_data self (fun d => Py.dict_pop d (row, col))
  else update_data self (fun d => Py.dict_setitem d (row, col) value).

(** [def __add__(self, other)] *)
Definition __add__ (self other : ref) : M ref :=
  s <- deref self ;; o <- deref other ;;
  if negb (rows s =? rows o) || negb (cols s =? cols o)
  then raise (ValueError "Matrix dimensions must match")
  else
    result <- __init__ (rows s) (cols s) ;;
    s <- deref self ;;
    for_ (data s) (fun '((r, c), val) => set result r c val) ;;
    o <- deref other ;;
    for_ (data o) (fun '((r, c), val) =>
      cur <- get result r c ;; set result r c (cur + val)) ;;
    ret result.

(** [def __sub__(self, other)] *)
Definition __sub__ (self other : ref) : M ref :=
  s <- deref self ;; o <- deref other ;;
  if negb (rows s =? rows o) || negb (cols s =? cols o)
  then raise (ValueError "Matrix dimensions must match")
  else
    result <- __init__ (rows s) (cols s) ;;
    s <- deref self ;;
    for_ (data s) (fun '((r, c), val) => set result r c val) ;;
    o <- deref other ;;
    for_ (data o) (fun '((r, c), val) =>
      cur <- get result r c ;; set result r c (cur - val)) ;;
    ret result.

(** [other_map.setdefault(r, []).append((c, val))] *)
Definition setdefault_append (other_map : Py.dict Z (list (Z * Z))) (r : Z) (x : Z * Z)
  : Py.dict Z (list (Z * Z)) :=
  Py.dict_setitem other_map r (default [] (Py.dict_get other_map r) ++ [x]).

(** The row index of [__matmul__]: B-row to the list of (col, value). *)
Definition build_other_map (d : Py.dict coord Z) : Py.dict Z (list (Z * Z)) :=
  foldl (fun om '((r, c), val) => setdefault_append om r (c, val)) [] d.

(** [def __matmul__(self, other)] *)
Definition __matmul__ (self other : ref) : M ref :=
  s <- deref self ;; o <- deref other ;;
  if negb (cols s =? rows o)
  then raise (ValueError "Matrix dimensions not aligned for multiplication")
  else
    result <- __init__ (rows s) (cols o) ;;
    o <- deref other ;;
    let other_map := build_other_map (data o) in
    s <- deref self ;;
    for_ (data s) (fun '((i, k), val1) =>
      match Py.dict_get other_map k with
      | Some l =>
          for_ l (fun '(j, val2) =>
            cur <- get result i j ;; set result i j (cur + val1 * val2))
      | None => ret tt
      end) ;;
    ret result.

(** One line of [__str__]'s output for the key [(r, c)]:
    [f"({r}, {c}, {self.data[(r, c)]})"]; [None] is the [KeyError] of the
    lookup. *)
Definition format_entry (r c v : Z) : string :=
  "(" +:+ Py.str r +:+ ", " +:+ Py.str c +:+ ", " +:+ Py.str v +:+ ")".

Definition entry_line (d : Py.dict coord Z) (k : coord) : option string :=
  match Py.dict_get d k with
  | Some v => Some (format_entry k.1 k.2 v)
  | None => None
  end.

(** The lines for the keys [ks], in that order. *)
Fixpoint entry_lines (d : Py.dict coord Z) (ks : list coord) : option (list string) :=
  match ks with
  | [] => Some []
  | k :: ks' =>
      match entry_line d k, entry_lines d ks' with
      | Some line, Some lines => Some (line :: lines)
      | _, _ => None
      end
  end.

(** [def __str__(self)] *)
Definition __str__ (self : ref) : M string :=
  m <- deref self ;;
  let header := ["rows=" +:+ Py.str (rows m); "cols=" +:+ Py.str (cols m)] in
  match entry_lines (data m) (Py.sorted (Py.dict_keys (data m))) with
  | Some body => ret (Py.join (String Py.newline EmptyString) (header ++ body))
  | None => raise (KeyError "(r, c)")
  end.

(** What [open(filename, 'r')] and reading it give: a failure, or the text
    as the file object delivers it (decoded, line ends translated to
    newline). *)
Inductive source : Type :=
  | Unreadable (e : string)
  | Text (txt : string).

(** [[line.strip() for line in f if line.strip()]] *)
Definition surviving_lines (txt : string) : list string :=
  filter (fun l => l <> EmptyString) (Py.strip <$> Py.readlines txt).

(** [int(line.split("=")[1])], [None] for any exception raised. *)
Definition header_int (line : string) : option Z :=
  match Py.split "=" line with
  | _ :: piece :: _ => Py.int piece
  | _ => None
  end.

(** [r, c, v = map(lambda x: int(x.strip()), entry[1:-1].split(","))],
    [None] for any exception raised. *)
Definition parse_triple (entry : string) : option (Z * Z * Z) :=
  match (fun x => Py.int (Py.strip x)) <$> Py.split "," (Py.slice_1_m1 entry) with
  | [Some r; Some c; Some v] => Some (r, c, v)
  | _ => None
  end.

(** The body of the loop over [lines[2:]]. *)
Definition load_entry (matrix : ref) (num_rows num_cols : Z) (entry : string) : M unit :=
  if negb (Py.startswith entry "(" && Py.endswith entry ")")
  then raise (ValueError "Invalid file format")
  else match parse_triple entry with
       | None => raise (ValueError "Invalid file format")
       | Some (r, c, v) =>
           if negb ((0 <=? r) && (r <? num_rows) && ((0 <=? c) && (c <? num_cols)))
           then raise (ValueError "Invalid file format")
           else set matrix r c v
       end.

(** [def load_from(cls, filename)], on what reading the file gives. *)
Definition load_from (src : source) : M ref :=
  match src with
  | Unreadable e => raise (Exception ("Failed to open file: " +:+ e))
  | Text txt =>
      match surviving_lines txt with
      | l0 :: l1 :: body =>
          if negb (Py.startswith l0 "rows=") || negb (Py.startswith l1 "cols=")
          then raise (ValueError "Input file has wrong format")
          else
            match header_int l0, header_int l1 with
            | Some num_rows, Some num_cols =>
                matrix <- __init__ num_rows num_cols ;;
                for_ body (load_entry matrix num_rows num_cols) ;;
                ret matrix
            | _, _ => raise (ValueError "Input file has wrong format")
            end
      | _ => raise (ValueError "Input file has wrong format")
      end
  end.

(** ** Pure views of the store *)

(** The value [get] returns on a dictionary. *)
Definition vget (d : Py.dict coord Z) (k : coord) : Z := default 0 (Py.dict_get d k).

(** The value [get] returns on a matrix. *)
Definition mget (m : SparseMatrix) (r c : Z) : Z := vget (data m) (r, c).

(** What [set] does to the dictionary of an object, once in bounds. *)
Definition store_set (d : Py.dict coord Z) (k : coord) (v : Z) : Py.dict coord Z :=
  if v =? 0 then Py.dict_pop d k else Py.dict_setitem d k v.

(** Invariants of the data model. *)
Definition unique_keys (m : SparseMatrix) : Prop := NoDup (Py.dict_keys (data m)).
Definition in_bounds (m : SparseMatrix) : Prop :=
  Forall (fun e : coord * Z => 0 <= e.1.1 < rows m /\ 0 <= e.1.2 < cols m) (data m).
Definition nonzero (m : SparseMatrix) : Prop :=
  Forall (fun e : coord * Z => e.2 <> 0) (data m).

(** A valid matrix: a dictionary (unique keys) whose entries are in bounds
    and non-zero. *)
Definition valid (m : SparseMatrix) : Prop :=
  unique_keys m /\ in_bounds m /\ nonzero m.

#[global] Instance valid_dec m : Decision (valid m).
Proof. unfold valid, unique_keys, in_bounds, nonzero. apply _. Defined.

Definition same_shape (A B : SparseMatrix) : Prop := rows A = rows B /\ cols A = cols B.

#[global] Instance same_shape_dec A B : Decision (same_shape A B).
Proof. unfold same_shape. apply _. Defined.

(** ** The loops of the arithmetic, as folds over the iterated entries *)

(** [for (r, c), val in src.items(): result.set(r, c, val)] *)
Definition copy_into (acc src : Py.dict coord Z) : Py.dict coord Z :=
  foldl (fun d e => store_set d e.1 e.2) acc src.

(** [for (r, c), val in l: result.set(r, c, op(result.get(r, c), val))] *)
Definition accum (op : Z -> Z -> Z) (acc : Py.dict coord Z) (l : list (coord * Z))
  : Py.dict coord Z :=
  foldl (fun d e => store_set d e.1 (op (vget d e.1) e.2)) acc l.

(** The dictionaries [__add__] and [__sub__] build. *)
Definition add_data (dA dB : Py.dict coord Z) : Py.dict coord Z :=
  accum Z.add (copy_into [] dA) dB.
Definition sub_data (dA dB : Py.dict coord Z) : Py.dict coord Z :=
  accum Z.sub (copy_into [] dA) dB.

(** The entries of row [k], as (col, value), in iteration order. *)
Fixpoint row_of (d : Py.dict coord Z) (k : Z) : list (Z * Z) :=
  match d with
  | [] => []
  | e :: d' => (if decide (e.1.1 = k) then [(e.1.2, e.2)] else []) ++ row_of d' k
  end.

(** The updates the inner loop makes for one entry [(i, k): val1] of A. *)
Definition row_products (i val1 : Z) (l : list (Z * Z)) : list (coord * Z) :=
  (fun jv : Z * Z => ((i, jv.1), val1 * jv.2)) <$> l.

Definition entry_products (om : Py.dict Z (list (Z * Z))) (e : coord * Z)
  : list (coord * Z) :=
  match Py.dict_get om e.1.2 with
  | Some l => row_products e.1.1 e.2 l
  | None => []
  end.

(** All the updates of [__matmul__], in the order they are made. *)
Definition products (dA : Py.dict coord Z) (om : Py.dict Z (list (Z * Z)))
  : list (coord * Z) :=
  flat_map (entry_products om) dA.

(** The dictionary [__matmul__] builds. *)
Definition matmul_data (dA dB : Py.dict coord Z) : Py.dict coord Z :=
  accum Z.add [] (products dA (build_other_map dB)).

(** ** Sums *)

(** Sum of the values listed under key [k]. *)
Fixpoint sum_key (l : list (coord * Z)) (k : coord) : Z :=
  match l with
  | [] => 0
  | e :: l' => (if decide (e.1 = k) then e.2 else 0) + sum_key l' k
  end.

Definition Zsum (l : list Z) : Z := foldr Z.add 0 l.

(** [sum over k of A[i,k] * B[k,j]], [k] ranging over the columns of A. *)
Definition dot (A B : SparseMatrix) (i j : Z) : Z :=
  Zsum ((fun k => mget A i k * mget B k j) <$> seqZ 0 (cols A)).

(** Sum, over the entries of row [i], of value times [g] of the column. *)
Fixpoint row_sum (d : Py.dict coord Z) (i : Z) (g : Z -> Z) : Z :=
  match d with
  | [] => 0
  | e :: d' => (if decide (e.1.1 = i) then e.2 * g e.1.2 else 0) + row_sum d' i g
  end.

(** ** Views of the text format *)

(** Every character of [s] passes the test [p]. *)
Fixpoint chars_all (p : ascii -> bool) (s : string) : bool :=
  match s with
  | EmptyString => true
  | String c s' => p c && chars_all p s'
  end.

(** Value of a decimal numeral read from the left, starting from [acc]. *)
Fixpoint uint_val (acc : Z) (d : Decimal.uint) : Z :=
  match d with
  | Decimal.Nil => acc
  | Decimal.D0 d' => uint_val (10 * acc + 0) d'
  | Decimal.D1 d' => uint_val (10 * acc + 1) d'
  | Decimal.D2 d' => uint_val (10 * acc + 2) d'
  | Decimal.D3 d' => uint_val (10 * acc + 3) d'
  | Decimal.D4 d' => uint_val (10 * acc + 4) d'
  | Decimal.D5 d' => uint_val (10 * acc + 5) d'
  | Decimal.D6 d' => uint_val (10 * acc + 6) d'
  | Decimal.D7 d' => uint_val (10 * acc + 7) d'
  | Decimal.D8 d' => uint_val (10 * acc + 8) d'
  | Decimal.D9 d' => uint_val (10 * acc + 9) d'
  end.

Definition nl : string := String Py.newline EmptyString.

(** The characters of [str(z)]. *)
Definition sign_or_digit (c : ascii) : bool := Py.isdigit c || Ascii.eqb c "-".

(** The text [__str__] produces for extents [R], [C] and the entries [es]
    listed in that order. *)
Definition serialized (R C : Z) (es : list (coord * Z)) : string :=
  Py.join nl (["rows=" +:+ Py.str R; "cols=" +:+ Py.str C] ++
              ((fun e : coord * Z => format_entry e.1.1 e.1.2 e.2) <$> es)).

(** The entries in the order [__str__] lists them. *)
Definition sorted_entries (d : Py.dict coord Z) : list (coord * Z) :=
  (fun k => (k, vget d k)) <$> Py.sorted (Py.dict_keys d).

(** A line that survives [strip] unchanged, with or without its newline. *)
Definition clean_line (l : string) : Prop :=
  l <> EmptyString /\
  chars_all (fun c => negb (Ascii.eqb c Py.newline)) l = true /\
  Py.lstrip_by Py.isspace l = l /\ Py.rstrip_by Py.isspace l = l.

(** The right end of a string is not a space, and there is one. *)
Definition rclean (s : string) : Prop :=
  Py.rstrip_by Py.isspace s = s /\ s <> EmptyString.

(** What one body line contributes: the triple [load_from] passes to [set],
    or [None] when the line makes it raise. *)
Definition entry_triple (num_rows num_cols : Z) (entry : string) : option (Z * Z * Z) :=
  if Py.startswith entry "(" && Py.endswith entry ")" then
    match parse_triple entry with
    | Some (r, c, v) =>
        if (0 <=? r) && (r <? num_rows) && ((0 <=? c) && (c <? num_cols))
        then Some (r, c, v) else None
    | None => None
    end
  else None.

(** Whether a body line passes the loop of [load_from]. *)
Definition entry_ok (num_rows num_cols : Z) (entry : string) : bool :=
  match entry_triple num_rows num_cols entry with Some _ => true | None => false end.

(** The dictionary of the matrix under construction after the loop over
    the body lines, which stops at the first line that raises. *)
Fixpoint load_data (num_rows num_cols : Z) (d : Py.dict coord Z) (body : list string)
  : Py.dict coord Z :=
  match body with
  | [] => d
  | entry :: rest =>
      match entry_triple num_rows num_cols entry with
      | Some (r, c, v) => load_data num_rows num_cols (store_set d (r, c) v) rest
      | None => d
      end
  end.

(** ** Frames and reachable heaps *)

(** A computation that, run on a heap whose newest object is the one under
    construction, changes at most that object and returns only results
    satisfying [P]. *)
Definition new_only (h : heap) {A} (P : A -> Prop) (c : M A) : Prop :=
  forall m, exists m',
    ((c (h ++ [m])).2 = h ++ [m']) /\ (forall r, (c (h ++ [m])).1 = Ok r -> P r).

(** An arithmetic method leaves every existing object as it was, and what
    it returns is a new object, different from both operands. *)
Definition keeps_operands (op : ref -> ref -> M ref) : Prop :=
  forall (h : heap) (a b : ref),
    (forall o m, h !! o = Some m -> (op a b h).2 !! o = Some m) /\
    (forall r, (op a b h).1 = Ok r ->
       h !! r = None /\ is_Some ((op a b h).2 !! r) /\ r <> a /\ r <> b).

(** The calls a client can make. *)
Inductive call : Type :=
  | Call_init (num_rows num_cols : Z)
  | Call_load_from (src : source)
  | Call_get (o : ref) (row col : Z)
  | Call_set (o : ref) (row col value : Z)
  | Call_add (a b : ref)
  | Call_sub (a b : ref)
  | Call_matmul (a b : ref)
  | Call_str (o : ref).

(** The heap a call leaves, whether it returns or raises. *)
Definition exec (c : call) (h : heap) : heap :=
  match c with
  | Call_init R C => (__init__ R C h).2
  | Call_load_from src => (load_from src h).2
  | Call_get o r c => (get o r c h).2
  | Call_set o r c v => (set o r c v h).2
  | Call_add a b => (__add__ a b h).2
  | Call_sub a b => (__sub__ a b h).2
  | Call_matmul a b => (__matmul__ a b h).2
  | Call_str o => (__str__ o h).2
  end.

(** Heaps reachable from the empty heap by calls. *)
Inductive reachable : heap -> Prop :=
  | reachable_empty : reachable []
  | reachable_call c h : reachable h -> reachable (exec c h).

(** ** Contracts of the arithmetic methods *)

(** The contract of [__add__] ([f] is [+]) and [__sub__] ([f] is [-]) on the
    operands [A] at [a] and [B] at [b]. *)
Definition elementwise (method : ref -> ref -> M ref) (f : Z -> Z -> Z)
    (h : heap) (a b : ref) (A B : SparseMatrix) : Prop :=
  ((method a b h).1 = Raise DimensionMismatch <-> ~ same_shape A B) /\
  (~ same_shape A B -> method a b h = (Raise DimensionMismatch, h)) /\
  (same_shape A B ->
   exists S,
     method a b h = (Ok (length h), h ++ [S]) /\
     h !! length h = None /\
     rows S = rows A /\ cols S = cols A /\
     (forall r c, 0 <= r < rows S -> 0 <= c < cols S ->
        get (length h) r c (h ++ [S]) = (Ok (f (mget A r c) (mget B r c)), h ++ [S])) /\
     (forall r c, f (mget A r c) (mget B r c) = 0 -> (r, c) ∉ Py.dict_keys (data S)) /\
     nonzero S).

(** The only way an arithmetic method fails on [A] and [B]. *)
Definition fails_only_with (x : outcome ref * heap) (e : exn) (cause : Prop) : Prop :=
  forall e', x.1 = Raise e' -> e' = e /\ cause.

(** ** Concrete matrices and texts used in examples *)

(** A = 1x2 {(0,0):3, (0,1):4} and B = 2x1 {(0,0):5, (1,0):6}. *)
Definition ex_A : SparseMatrix := mkSparseMatrix 1 2 [((0, 0), 3); ((0, 1), 4)].
Definition ex_B : SparseMatrix := mkSparseMatrix 2 1 [((0, 0), 5); ((1, 0), 6)].

(** Two 2x2 matrices whose sum cancels at (0,0), stored in different orders. *)
Definition ex_P : SparseMatrix := mkSparseMatrix 2 2 [((0, 0), 1); ((1, 1), 2)].
Definition ex_Q : SparseMatrix := mkSparseMatrix 2 2 [((1, 1), 1); ((0, 0), -1)].

Definition ex_entry_outside : string :=
  "rows=3" +:+ nl +:+ "cols=3" +:+ nl +:+ "(5, 0, 1)".
Definition ex_entry_short : string :=
  "rows=3" +:+ nl +:+ "cols=3" +:+ nl +:+ "(1,2)".

(** A one-object heap reached by a construction and a [set]. *)
Definition ex_heap : heap := exec (Call_set 0%nat 0 0 5) (exec (Call_init 1 1) []).

(** ** Further views, used by the additional properties *)

(** An identity matrix of size [n], whatever the order of its entries. *)
Definition is_identity (n : Z) (I : SparseMatrix) : Prop :=
  rows I = n /\ cols I = n /\ valid I /\
  forall k j, mget I k j = if decide (k = j /\ 0 <= k < n) then 1 else 0.

(** The 2x2 identity and an empty 2x2 matrix. *)
Definition ex_I : SparseMatrix := mkSparseMatrix 2 2 [((1, 1), 1); ((0, 0), 1)].
Definition ex_Z : SparseMatrix := mkSparseMatrix 2 2 [].

(** ** The interactive session *)

(** [str(err)] for an exception of this program: its message. *)
Definition exn_str (e : exn) : string :=
  match e with
  | ValueError msg | IndexError msg | KeyError msg | AttributeError msg
  | Exception msg => msg
  end.

(** [s.lower()] on ASCII. *)
Definition lower_char (c : ascii) : ascii :=
  let n := nat_of_ascii c in
  if ((65 <=? n) && (n <=? 90))%nat then ascii_of_nat (n + 32) else c.

Fixpoint lower (s : string) : string :=
  match s with
  | EmptyString => EmptyString
  | String c s' => String (lower_char c) (lower s')
  end.

(** How [interactive_session] ends: it returns, or an exception it does not
    catch leaves it ([input] at the end of the input, or one raised by
    [print(result)]). *)
Inductive ending : Type :=
  | Returns
  | UncaughtEOFError
  | Uncaught (e : exn).

Section Session.

(** The file system is not part of the program: its states and what
    opening, reading and writing do are parameters.
    [read_file d name] is what [open(name, 'r')] and reading give;
    [open_write d name] is [open(name, 'w')]: the state after, and the text
    of the exception when it raises;
    [write_close d name text] is [f.write(text)] and leaving the [with]
    block, likewise. *)
Variable FS : Type.
Variable read_file : FS -> string -> source.
Variable open_write : FS -> string -> FS * option string.
Variable write_close : FS -> string -> string -> FS * option string.

(** The lines still to be typed, the chunks written to standard output so
    far (in order), and the file system. *)
Record world : Type := mkWorld {
  stdin : list string;
  stdout : list string;
  disk : FS
}.

(** [print(s)] *)
Definition print (s : string) (w : world) : world :=
  mkWorld (stdin w) (stdout w ++ [s +:+ nl]) (disk w).

(** [input(prompt)]: [None] is the [EOFError] at the end of the input. *)
Definition input (prompt : string) (w : world) : option string * world :=
  match stdin w with
  | [] => (None, mkWorld [] (stdout w ++ [prompt]) (disk w))
  | line :: rest => (Some line, mkWorld rest (stdout w ++ [prompt]) (disk w))
  end.

(** The four [print] calls that open the session. *)
Definition print_menu (w : world) : world :=
  print "3: Multiply" (print "2: Subtract" (print "1: Add"
    (print "Sparse Matrix Calculator" w))).

(** [A = SparseMatrix.load_from(f1)] then [B = SparseMatrix.load_from(f2)],
    in a heap of their own. *)
Definition load_operands (d : FS) (f1 f2 : string) : M (ref * ref) :=
  A <- load_from (read_file d f1) ;;
  B <- load_from (read_file d f2) ;;
  ret (A, B).

(** [A + B], [A - B] or [A @ B], by the selection. *)
Definition operate (action : string) (A B : ref) : M ref :=
  if String.eqb action "1" then __add__ A B
  else if String.eqb action "2" then __sub__ A B
  else __matmul__ A B.

(** The [try] block that writes the result, and its [except]. *)
Definition save_result (result : ref) (h : heap) (out_path : string) (w : world) : world :=
  match open_write (disk w) out_path with
  | (d1, Some err) =>
      print ("Failed to write file: " +:+ err) (mkWorld (stdin w) (stdout w) d1)
  | (d1, None) =>
      match __str__ result h with
      | (Raise e, _) =>
          print ("Failed to write file: " +:+ exn_str e) (mkWorld (stdin w) (stdout w) d1)
      | (Ok text, _) =>
          match write_close d1 out_path text with
          | (d2, Some err) =>
              print ("Failed to write file: " +:+ err) (mkWorld (stdin w) (stdout w) d2)
          | (d2, None) => print "Saved." (mkWorld (stdin w) (stdout w) d2)
          end
      end
  end.

(** [print("Result:")] and [print(result)]. *)
Definition show_result (result : ref) (h : heap) (w : world) : ending * world :=
  let w := print "Result:" w in
  match __str__ result h with
  | (Ok text, _) => (Returns, print text w)
  | (Raise e, _) => (Uncaught e, w)
  end.

(** [def interactive_session()] *)
Definition interactive_session (w : world) : ending * world :=
  let w := print_menu w in
  match input "Choose (1/2/3): " w with
  | (None, w) => (UncaughtEOFError, w)
  | (Some line, w) =>
      let action := Py.strip line in
      if negb (String.eqb action "1" || String.eqb action "2" || String.eqb action "3")
      then (Returns, print "Invalid selection." w)
      else
        match input "First matrix file: " w with
        | (None, w) => (UncaughtEOFError, w)
        | (Some line1, w) =>
            let f1 := Py.strip line1 in
            match input "Second matrix file: " w with
            | (None, w) => (UncaughtEOFError, w)
            | (Some line2, w) =>
                let f2 := Py.strip line2 in
                match load_operands (disk w) f1 f2 [] with
                | (Raise err, _) =>
                    (Returns, print ("Error reading matrix: " +:+ exn_str err) w)
                | (Ok (A, B), h) =>
                    match operate action A B h with
                    | (Raise err, _) =>
                        (Returns, print ("Operation error: " +:+ exn_str err) w)
                    | (Ok result, h) =>
                        match input "Save result to file? (y/n): " w with
                        | (None, w) => (UncaughtEOFError, w)
                        | (Some line3, w) =>
                            let save := lower (Py.strip line3) in
                            if String.eqb save "y" then
                              match input "Output file path: " w with
                              | (None, w) => (UncaughtEOFError, w)
                              | (Some line4, w) =>
                                  (Returns, save_result result h (Py.strip line4) w)
                              end
                            else show_result result h w
                        end
                    end
                end
            end
        end
  end.

End Session.

Arguments mkWorld {FS} stdin stdout disk.
Arguments stdin {FS} w.
Arguments stdout {FS} w.
Arguments disk {FS} w.
Arguments print {FS} s w.
Arguments input {FS} prompt w.
Arguments print_menu {FS} w.

(** A file system for examples: the files as (name, text), every name
    writable. *)
Definition ex_fs : Type := list (string * string).
Definition ex_read (d : ex_fs) (name : string) : source :=
  match Py.dict_get d name with
  | Some txt => Text txt
  | None => Unreadable "[Errno 2] No such file or directory"
  end.
Definition ex_open_write (d : ex_fs) (name : string) : ex_fs * option string :=
  (Py.dict_setitem d name EmptyString, None).
Definition ex_write_close (d : ex_fs) (name text : string) : ex_fs * option string :=
  (Py.dict_setitem d name text, None).

(** Two files holding the 2x2 matrices [ex_P] and [ex_I]. *)
Definition ex_disk : ex_fs :=
  [("p.txt", "rows=2" +:+ nl +:+ "cols=2" +:+ nl +:+ "(0, 0, 1)" +:+ nl +:+ "(1, 1, 2)");
   ("i.txt", "rows=2" +:+ nl +:+ "cols=2" +:+ nl +:+ "(1, 1, 1)" +:+ nl +:+ "(0, 0, 1)");
   ("row.txt", "rows=1" +:+ nl +:+ "cols=2" +:+ nl +:+ "(0, 1, 5)")].

(** What the session has written once the selection and the two file
    names are read. *)
Definition menu_lines : list string :=
  ["Sparse Matrix Calculator" +:+ nl; "1: Add" +:+ nl; "2: Subtract" +:+ nl;
   "3: Multiply" +:+ nl].
Definition operand_prompts : list string :=
  ["Choose (1/2/3): "; "First matrix file: "; "Second matrix file: "].

(** [action in ('1', '2', '3')] *)
Definition valid_action (action : string) : Prop :=
  action = "1" \/ action = "2" \/ action = "3".

(** The message of the dimension check of the selected operation. *)
Definition dimension_message (action : string) : string :=
  if String.eqb action "3" then "Matrix dimensions not aligned for multiplication"
  else "Matrix dimensions must match".

(** A session started with the given lines of input on [ex_disk]. *)
Definition ex_world (inp : list string) : world ex_fs := mkWorld inp [] ex_disk.

(** * Lemmas *)

(** ** The built-ins on sample values *)

Example int_samples :
  Py.int " 1_000 " = Some 1000 /\ Py.int "-0" = Some 0 /\ Py.int "+3" = Some 3 /\
  Py.int "007" = Some 7 /\ Py.int "" = None /\ Py.int "- 3" = None /\
  Py.int "1__0" = None /\ Py.int "_1" = None /\ Py.int "3.0" = None.
Proof. by vm_compute. Qed.

Example str_samples : Py.str 0 = "0" /\ Py.str (-12) = "-12" /\ Py.str 305 = "305".
Proof. by vm_compute. Qed.

Example split_samples :
  Py.split "," "" = [""] /\ Py.split "," ",," = [""; ""; ""] /\
  Py.split "=" "a=b=c" = ["a"; "b"; "c"] /\ Py.split "=" "rows=" = ["rows"; ""].
Proof. by vm_compute. Qed.

Example strip_samples :
  Py.strip "  a b  " = "a b" /\ Py.slice_1_m1 "(a)" = "a" /\ Py.slice_1_m1 "()" = "" /\
  Py.endswith "(a)" ")" = true /\ Py.endswith "(" ")" = false.
Proof. by vm_compute. Qed.

Example sorted_samples :
  Py.sorted [(1, 2); (0, 5); (1, -1); (-1, 9)] = [(-1, 9); (0, 5); (1, -1); (1, 2)].
Proof. by vm_compute. Qed.

Example matmul_sample :
  (a <- load_from (Text ("rows=1" +:+ nl +:+ "cols=2" +:+ nl +:+ "(0, 0, 3)" +:+ nl
                           +:+ "(0,1 , 4)" +:+ nl)) ;;
   b <- load_from (Text ("rows=2" +:+ nl +:+ nl +:+ " cols=1" +:+ nl +:+ "(0, 0, 5)"
                           +:+ nl +:+ "(1, 0, 6)")) ;;
   c <- __matmul__ a b ;; __str__ c) [] =
  (Ok ("rows=1" +:+ nl +:+ "cols=1" +:+ nl +:+ "(0, 0, 39)"),
   [ex_A; ex_B; mkSparseMatrix 1 1 [((0, 0), 39)]]).
Proof. by vm_compute. Qed.

(** ** Dictionaries *)

Section DictFacts.
Context {K V : Type} `{EqDecision K}.
Implicit Types (d : Py.dict K V) (k : K) (v : V).

Lemma dict_get_setitem d k v k' :
  Py.dict_get (Py.dict_setitem d k v) k' =
  if decide (k' = k) then Some v else Py.dict_get d k'.
Proof.
  induction d as [|[k0 v0] d IH]; simpl.
  - repeat case_decide; congruence.
  - destruct (decide (k = k0)) as [->|]; simpl;
      repeat case_decide; try congruence.
Qed.

Lemma dict_get_None d k : Py.dict_get d k = None <-> k ∉ Py.dict_keys d.
Proof.
  unfold Py.dict_keys. induction d as [|[k0 v0] d IH]; simpl.
  - split; [intros _; apply not_elem_of_nil | done].
  - rewrite not_elem_of_cons. case_decide; split; try done; tauto.
Qed.

Lemma dict_get_Some_elem d k v : Py.dict_get d k = Some v -> (k, v) ∈ d.
Proof.
  induction d as [|[k0 v0] d IH]; simpl; [done|].
  case_decide; intros E.
  - injection E as <-. subst. left.
  - right. auto.
Qed.

Lemma elem_dict_get d k v :
  NoDup (Py.dict_keys d) -> (k, v) ∈ d -> Py.dict_get d k = Some v.
Proof.
  unfold Py.dict_keys. induction d as [|[k0 v0] d IH]; simpl.
  - intros _ E. by apply elem_of_nil in E.
  - intros [N1 N2]%NoDup_cons [E|E]%elem_of_cons.
    + injection E as -> ->. by rewrite decide_True.
    + rewrite decide_False; [auto|]. intros ->. apply N1.
      apply (list_elem_of_fmap_2 fst) in E. done.
Qed.

Lemma dict_pop_keys d k k' :
  k' ∈ Py.dict_keys (Py.dict_pop d k) -> k' ∈ Py.dict_keys d.
Proof.
  unfold Py.dict_keys. induction d as [|[k0 v0] d IH]; simpl; [done|].
  case_decide; simpl; rewrite ?elem_of_cons; [tauto|].
  intros [?|?]; auto.
Qed.

Lemma dict_pop_NoDup d k :
  NoDup (Py.dict_keys d) -> NoDup (Py.dict_keys (Py.dict_pop d k)).
Proof.
  unfold Py.dict_keys. induction d as [|[k0 v0] d IH]; simpl; [done|].
  intros [N1 N2]%NoDup_cons. case_decide; [done|]. simpl.
  apply NoDup_cons. split; [|auto].
  intros E. by apply dict_pop_keys in E.
Qed.

Lemma dict_get_pop d k k' :
  NoDup (Py.dict_keys d) ->
  Py.dict_get (Py.dict_pop d k) k' =
  if decide (k' = k) then None else Py.dict_get d k'.
Proof.
  unfold Py.dict_keys. induction d as [|[k0 v0] d IH]; simpl.
  - by case_decide.
  - intros [N1 N2]%NoDup_cons.
    destruct (decide (k = k0)) as [->|Hne]; simpl.
    + destruct (decide (k' = k0)) as [->|]; [|done].
      by apply dict_get_None.
    + rewrite IH by done. repeat case_decide; congruence.
Qed.

Lemma dict_setitem_keys d k v k' :
  k' ∈ Py.dict_keys (Py.dict_setitem d k v) <-> k' = k \/ k' ∈ Py.dict_keys d.
Proof.
  unfold Py.dict_keys. induction d as [|[k0 v0] d IH]; simpl.
  - by rewrite elem_of_cons.
  - case_decide; simpl; rewrite !elem_of_cons; [subst; tauto|].
    rewrite IH. tauto.
Qed.

Lemma dict_setitem_NoDup d k v :
  NoDup (Py.dict_keys d) -> NoDup (Py.dict_keys (Py.dict_setitem d k v)).
Proof.
  unfold Py.dict_keys. induction d as [|[k0 v0] d IH]; simpl.
  - intros _. apply NoDup_singleton.
  - intros [N1 N2]%NoDup_cons. case_decide; simpl.
    + subst. by apply NoDup_cons.
    + apply NoDup_cons. split; [|auto].
      intros [?|?]%dict_setitem_keys; [congruence|done].
Qed.

Lemma dict_setitem_new d k v :
  k ∉ Py.dict_keys d -> Py.dict_setitem d k v = d ++ [(k, v)].
Proof.
  unfold Py.dict_keys. induction d as [|[k0 v0] d IH]; simpl; [done|].
  intros [N1 N2]%not_elem_of_cons. rewrite decide_False by done.
  by rewrite IH.
Qed.

Lemma dict_setitem_elem d k v e :
  e ∈ Py.dict_setitem d k v -> e = (k, v) \/ e ∈ d.
Proof.
  induction d as [|[k0 v0] d IH]; simpl.
  - intros ?%list_elem_of_singleton. auto.
  - case_decide; rewrite !elem_of_cons; intros [?|?]; auto.
    destruct IH; auto.
Qed.

Lemma dict_pop_elem d k e : e ∈ Py.dict_pop d k -> e ∈ d.
Proof.
  induction d as [|[k0 v0] d IH]; simpl; [done|].
  case_decide; rewrite ?elem_of_cons; [auto|]. intros [?|?]; auto.
Qed.

(** Two dictionaries with the same lookups hold the same entries. *)
Lemma dict_ext_Permutation (d1 d2 : Py.dict K V) :
  NoDup (Py.dict_keys d1) -> NoDup (Py.dict_keys d2) ->
  (forall k, Py.dict_get d1 k = Py.dict_get d2 k) -> d1 ≡ₚ d2.
Proof.
  intros N1 N2 E. apply NoDup_Permutation.
  - eapply NoDup_fmap_1, N1.
  - eapply NoDup_fmap_1, N2.
  - intros [k v]. split; intros I.
    + apply dict_get_Some_elem. rewrite <- E. by apply elem_dict_get.
    + apply dict_get_Some_elem. rewrite E. by apply elem_dict_get.
Qed.
End DictFacts.

(** ** The store under [set] *)

Lemma vget_store_set d k v k' :
  NoDup (Py.dict_keys d) ->
  vget (store_set d k v) k' = if decide (k' = k) then v else vget d k'.
Proof.
  intros N. unfold vget, store_set. destruct (Z.eqb_spec v 0) as [->|Hv].
  - rewrite dict_get_pop by done. by case_decide.
  - rewrite dict_get_setitem. by case_decide.
Qed.

Lemma store_set_NoDup d k v :
  NoDup (Py.dict_keys d) -> NoDup (Py.dict_keys (store_set d k v)).
Proof.
  unfold store_set. case_match; auto using dict_pop_NoDup, dict_setitem_NoDup.
Qed.

Lemma store_set_nonzero d k v :
  Forall (fun e : coord * Z => e.2 <> 0) d ->
  Forall (fun e : coord * Z => e.2 <> 0) (store_set d k v).
Proof.
  rewrite !Forall_forall. intros Hd e. unfold store_set.
  destruct (Z.eqb_spec v 0) as [->|Hv].
  - intros ?%dict_pop_elem. auto.
  - intros [->|?]%dict_setitem_elem; auto.
Qed.

Lemma store_set_keys (P : coord -> Prop) d k v :
  P k -> Forall (fun e : coord * Z => P e.1) d ->
  Forall (fun e : coord * Z => P e.1) (store_set d k v).
Proof.
  rewrite !Forall_forall. intros Hk Hd e. unfold store_set. case_match.
  - intros ?%dict_pop_elem. auto.
  - intros [->|?]%dict_setitem_elem; auto.
Qed.

(** A stored entry of a non-zero store is its value; an absent one reads 0. *)
Lemma dict_get_vget d k :
  Forall (fun e : coord * Z => e.2 <> 0) d ->
  Py.dict_get d k = if decide (vget d k = 0) then None else Some (vget d k).
Proof.
  intros Hd. unfold vget. destruct (Py.dict_get d k) as [v|] eqn:E; simpl.
  - apply dict_get_Some_elem in E. rewrite Forall_forall in Hd.
    apply Hd in E. simpl in E. by rewrite decide_False.
  - done.
Qed.

Lemma vget_ext_Permutation d1 d2 :
  NoDup (Py.dict_keys d1) -> NoDup (Py.dict_keys d2) ->
  Forall (fun e : coord * Z => e.2 <> 0) d1 ->
  Forall (fun e : coord * Z => e.2 <> 0) d2 ->
  (forall k, vget d1 k = vget d2 k) -> d1 ≡ₚ d2.
Proof.
  intros N1 N2 Z1 Z2 E. apply dict_ext_Permutation; [done..|].
  intros k. rewrite !dict_get_vget by done. by rewrite E.
Qed.

(** *** The loops of the arithmetic, as folds over the iterated entries *)

Lemma copy_into_NoDup src acc :
  NoDup (Py.dict_keys acc) -> NoDup (Py.dict_keys (copy_into acc src)).
Proof.
  revert acc. induction src as [|e src IH]; intros acc N; simpl; [done|].
  apply IH. by apply store_set_NoDup.
Qed.

Lemma copy_into_nonzero src acc :
  Forall (fun e : coord * Z => e.2 <> 0) acc ->
  Forall (fun e : coord * Z => e.2 <> 0) (copy_into acc src).
Proof.
  revert acc. induction src as [|e src IH]; intros acc N; simpl; [done|].
  apply IH. by apply store_set_nonzero.
Qed.

Lemma accum_NoDup op l acc :
  NoDup (Py.dict_keys acc) -> NoDup (Py.dict_keys (accum op acc l)).
Proof.
  revert acc. induction l as [|e l IH]; intros acc N; simpl; [done|].
  apply IH. by apply store_set_NoDup.
Qed.

Lemma accum_nonzero op l acc :
  Forall (fun e : coord * Z => e.2 <> 0) acc ->
  Forall (fun e : coord * Z => e.2 <> 0) (accum op acc l).
Proof.
  revert acc. induction l as [|e l IH]; intros acc N; simpl; [done|].
  apply IH. by apply store_set_nonzero.
Qed.

Lemma copy_into_keys (P : coord -> Prop) src acc :
  Forall (fun e : coord * Z => P e.1) src ->
  Forall (fun e : coord * Z => P e.1) acc ->
  Forall (fun e : coord * Z => P e.1) (copy_into acc src).
Proof.
  revert acc. induction src as [|e src IH]; intros acc Hs Ha; simpl; [done|].
  apply Forall_cons in Hs as [He Hs]. apply IH; [done|].
  by apply store_set_keys.
Qed.

Lemma accum_keys (P : coord -> Prop) op l acc :
  Forall (fun e : coord * Z => P e.1) l ->
  Forall (fun e : coord * Z => P e.1) acc ->
  Forall (fun e : coord * Z => P e.1) (accum op acc l).
Proof.
  revert acc. induction l as [|e l IH]; intros acc Hs Ha; simpl; [done|].
  apply Forall_cons in Hs as [He Hs]. apply IH; [done|].
  by apply store_set_keys.
Qed.

(** Copying the entries of a dictionary: each key reads as in the source. *)
Lemma vget_copy_into src acc k :
  NoDup (Py.dict_keys acc) -> NoDup (Py.dict_keys src) ->
  vget (copy_into acc src) k =
  match Py.dict_get src k with Some v => v | None => vget acc k end.
Proof.
  revert acc. induction src as [|[k0 v0] src IH]; intros acc Na Ns; simpl; [done|].
  apply NoDup_cons in Ns as [N1 N2].
  rewrite IH by auto using store_set_NoDup. cbn [fst snd].
  destruct (decide (k = k0)) as [->|Hne].
  - simpl in N1. apply dict_get_None in N1. rewrite N1.
    rewrite vget_store_set by done. by rewrite decide_True.
  - destruct (Py.dict_get src k); [done|].
    rewrite vget_store_set by done. by rewrite decide_False.
Qed.

Lemma vget_accum_add l acc k :
  NoDup (Py.dict_keys acc) ->
  vget (accum Z.add acc l) k = vget acc k + sum_key l k.
Proof.
  revert acc. induction l as [|[k0 v0] l IH]; intros acc Na; simpl; [lia|].
  rewrite IH by auto using store_set_NoDup.
  rewrite vget_store_set by done. cbn [fst snd].
  destruct (decide (k = k0)) as [->|Hne].
  - rewrite decide_True by done. lia.
  - rewrite decide_False by done. lia.
Qed.

Lemma vget_accum_sub l acc k :
  NoDup (Py.dict_keys acc) ->
  vget (accum Z.sub acc l) k = vget acc k - sum_key l k.
Proof.
  revert acc. induction l as [|[k0 v0] l IH]; intros acc Na; simpl; [lia|].
  rewrite IH by auto using store_set_NoDup.
  rewrite vget_store_set by done. cbn [fst snd].
  destruct (decide (k = k0)) as [->|Hne].
  - rewrite decide_True by done. lia.
  - rewrite decide_False by done. lia.
Qed.

Lemma sum_key_NoDup l k :
  NoDup (Py.dict_keys l) -> sum_key l k = vget l k.
Proof.
  unfold Py.dict_keys, vget. induction l as [|[k0 v0] l IH]; simpl; [done|].
  intros [N1 N2]%NoDup_cons. rewrite IH by done.
  destruct (decide (k0 = k)) as [->|Hne].
  - rewrite decide_True by done. simpl in N1. apply dict_get_None in N1.
    rewrite N1. simpl. lia.
  - rewrite decide_False by done. lia.
Qed.

Lemma sum_key_app l1 l2 k : sum_key (l1 ++ l2) k = sum_key l1 k + sum_key l2 k.
Proof. induction l1 as [|e l1 IH]; simpl; lia. Qed.

Lemma vget_nil k : vget [] k = 0.
Proof. done. Qed.

(** ** Running the methods *)

Lemma lookup_new_object (h : heap) m : (h ++ [m]) !! length h = Some m.
Proof. by apply list_lookup_middle. Qed.

Lemma insert_new_object (h : heap) m m' : <[length h := m']> (h ++ [m]) = h ++ [m'].
Proof.
  rewrite insert_app_r_alt by lia. by replace (length h - length h)%nat with 0%nat by lia.
Qed.

Lemma lookup_old_object (h : heap) m (o : ref) x :
  h !! o = Some x -> (h ++ [m]) !! o = Some x.
Proof. intros E. by apply lookup_app_l_Some. Qed.

Lemma deref_run (h : heap) o m : h !! o = Some m -> deref o h = (Ok m, h).
Proof. unfold deref. by intros ->. Qed.

Lemma get_run (h : heap) o m r c :
  h !! o = Some m -> get o r c h = (Ok (vget (data m) (r, c)), h).
Proof. intros E. unfold get, bind. by rewrite (deref_run _ _ _ E). Qed.

Lemma set_run (h : heap) o m r c v :
  h !! o = Some m ->
  set o r c v h =
  if in_range m r c
  then (Ok tt, <[o := mkSparseMatrix (rows m) (cols m) (store_set (data m) (r, c) v)]> h)
  else (Raise IndexOutOfBounds, h).
Proof.
  intros E. unfold set, bind. rewrite (deref_run _ _ _ E).
  destruct (in_range m r c); simpl; [|done].
  unfold store_set. destruct (v =? 0); unfold update_data; by rewrite E.
Qed.

Lemma get_new_run (h : heap) R C d r c :
  get (length h) r c (h ++ [mkSparseMatrix R C d]) =
  (Ok (vget d (r, c)), h ++ [mkSparseMatrix R C d]).
Proof. by rewrite (get_run _ _ _ _ _ (lookup_new_object h _)). Qed.

Lemma set_new_run (h : heap) R C d r c v :
  set (length h) r c v (h ++ [mkSparseMatrix R C d]) =
  if in_range (mkSparseMatrix R C d) r c
  then (Ok tt, h ++ [mkSparseMatrix R C (store_set d (r, c) v)])
  else (Raise IndexOutOfBounds, h ++ [mkSparseMatrix R C d]).
Proof.
  rewrite (set_run _ _ _ _ _ _ (lookup_new_object h _)).
  by rewrite insert_new_object.
Qed.

Lemma in_range_true m r c :
  in_range m r c = true <-> 0 <= r < rows m /\ 0 <= c < cols m.
Proof. unfold in_range. lia. Qed.

(** A loop whose body rewrites the dictionary of the newest object. *)
Lemma for_fold_run {X} (l : list X) (body : X -> M unit)
    (step : Py.dict coord Z -> X -> Py.dict coord Z) (h : heap) R C :
  (forall x d, x ∈ l ->
     body x (h ++ [mkSparseMatrix R C d]) = (Ok tt, h ++ [mkSparseMatrix R C (step d x)])) ->
  forall d, for_ l body (h ++ [mkSparseMatrix R C d]) =
            (Ok tt, h ++ [mkSparseMatrix R C (foldl step d l)]).
Proof.
  induction l as [|x l IH]; intros Hb d; simpl; [done|].
  unfold bind. rewrite Hb by left. apply IH.
  intros y d' Hy. apply Hb. by right.
Qed.

(** The two loops of [__add__] and [__sub__]. *)
Lemma copy_loop_run (h : heap) R C (src : Py.dict coord Z) d :
  Forall (fun e : coord * Z => 0 <= e.1.1 < R /\ 0 <= e.1.2 < C) src ->
  for_ src (fun '((r, c), val) => set (length h) r c val) (h ++ [mkSparseMatrix R C d]) =
  (Ok tt, h ++ [mkSparseMatrix R C (copy_into d src)]).
Proof.
  intros Hb. unfold copy_into. apply for_fold_run.
  intros [[r c] v] d' Hx. rewrite set_new_run.
  rewrite Forall_forall in Hb. apply Hb in Hx. simpl in Hx.
  by rewrite (proj2 (in_range_true _ _ _)).
Qed.

Lemma accum_loop_run (op : Z -> Z -> Z) (h : heap) R C (l : list (coord * Z)) d :
  Forall (fun e : coord * Z => 0 <= e.1.1 < R /\ 0 <= e.1.2 < C) l ->
  for_ l (fun '((r, c), val) =>
            cur <- get (length h) r c ;; set (length h) r c (op cur val))
       (h ++ [mkSparseMatrix R C d]) =
  (Ok tt, h ++ [mkSparseMatrix R C (accum op d l)]).
Proof.
  intros Hb. unfold accum. apply for_fold_run.
  intros [[r c] v] d' Hx. unfold bind. rewrite get_new_run, set_new_run.
  rewrite Forall_forall in Hb. apply Hb in Hx. simpl in Hx.
  by rewrite (proj2 (in_range_true _ _ _)).
Qed.

Lemma shape_test A B :
  negb (rows A =? rows B) || negb (cols A =? cols B) = false <-> same_shape A B.
Proof. unfold same_shape. lia. Qed.

Lemma add_sub_run (op : Z -> Z -> Z) (h : heap) a b A B :
  h !! a = Some A -> h !! b = Some B ->
  in_bounds A -> in_bounds B -> same_shape A B ->
  (s <- deref a ;; o <- deref b ;;
   if negb (rows s =? rows o) || negb (cols s =? cols o)
   then raise (ValueError "Matrix dimensions must match")
   else
     result <- __init__ (rows s) (cols s) ;;
     s <- deref a ;;
     for_ (data s) (fun '((r, c), val) => set result r c val) ;;
     o <- deref b ;;
     for_ (data o) (fun '((r, c), val) =>
       cur <- get result r c ;; set result r c (op cur val)) ;;
     ret result) h =
  (Ok (length h),
   h ++ [mkSparseMatrix (rows A) (cols A) (accum op (copy_into [] (data A)) (data B))]).
Proof.
  intros Ea Eb BA BB S. unfold bind at 1. rewrite (deref_run _ _ _ Ea).
  unfold bind at 1. rewrite (deref_run _ _ _ Eb).
  rewrite (proj2 (shape_test A B) S).
  unfold bind at 1. unfold __init__.
  unfold bind at 1. rewrite (deref_run _ _ _ (lookup_old_object _ _ _ _ Ea)).
  unfold bind at 1. rewrite copy_loop_run by exact BA.
  unfold bind at 1. rewrite (deref_run _ _ _ (lookup_old_object _ _ _ _ Eb)).
  unfold bind at 1. rewrite accum_loop_run; [done|].
  destruct S as [-> ->]. exact BB.
Qed.

Lemma add_run (h : heap) a b A B :
  h !! a = Some A -> h !! b = Some B ->
  in_bounds A -> in_bounds B -> same_shape A B ->
  __add__ a b h =
  (Ok (length h), h ++ [mkSparseMatrix (rows A) (cols A) (add_data (data A) (data B))]).
Proof. apply (add_sub_run Z.add). Qed.

Lemma sub_run (h : heap) a b A B :
  h !! a = Some A -> h !! b = Some B ->
  in_bounds A -> in_bounds B -> same_shape A B ->
  __sub__ a b h =
  (Ok (length h), h ++ [mkSparseMatrix (rows A) (cols A) (sub_data (data A) (data B))]).
Proof. apply (add_sub_run Z.sub). Qed.

(** A dimension failure happens before anything is allocated. *)
Lemma add_sub_mismatch (h : heap) a b A B (k : SparseMatrix -> SparseMatrix -> M ref) :
  h !! a = Some A -> h !! b = Some B -> ~ same_shape A B ->
  (s <- deref a ;; o <- deref b ;;
   if negb (rows s =? rows o) || negb (cols s =? cols o)
   then raise (ValueError "Matrix dimensions must match")
   else k s o) h = (Raise DimensionMismatch, h).
Proof.
  intros Ea Eb S. unfold bind. rewrite (deref_run _ _ _ Ea), (deref_run _ _ _ Eb).
  destruct (negb (rows A =? rows B) || negb (cols A =? cols B)) eqn:T; [done|].
  by apply shape_test in T.
Qed.

Lemma add_mismatch (h : heap) a b A B :
  h !! a = Some A -> h !! b = Some B -> ~ same_shape A B ->
  __add__ a b h = (Raise DimensionMismatch, h).
Proof. apply add_sub_mismatch. Qed.

Lemma sub_mismatch (h : heap) a b A B :
  h !! a = Some A -> h !! b = Some B -> ~ same_shape A B ->
  __sub__ a b h = (Raise DimensionMismatch, h).
Proof. apply add_sub_mismatch. Qed.

(** *** Multiplication *)

Lemma row_of_app d1 d2 k : row_of (d1 ++ d2) k = row_of d1 k ++ row_of d2 k.
Proof. induction d1 as [|e d1 IH]; simpl; [done|]. by rewrite IH, (assoc_L (++)). Qed.

Lemma row_of_elem d k j v : (j, v) ∈ row_of d k -> ((k, j), v) ∈ d.
Proof.
  induction d as [|[[r c] w] d IH]; simpl; [by intros ?%elem_of_nil|].
  intros [E|E]%elem_of_app.
  - case_decide; [|by apply elem_of_nil in E].
    apply list_elem_of_singleton in E. injection E as -> ->. subst. left.
  - right. auto.
Qed.

(** [other_map] groups the entries by row: looking a row up gives the
    entries of that row, a row with no entry is not a key. *)
Lemma other_map_lookup d k :
  default [] (Py.dict_get (build_other_map d) k) = row_of d k /\
  (Py.dict_get (build_other_map d) k = None <-> row_of d k = []).
Proof.
  unfold build_other_map. induction d as [|[[r c] v] d IH] using rev_ind; [done|].
  rewrite foldl_snoc, row_of_app. destruct IH as [IH1 IH2].
  remember (foldl (fun om '((r, c), val) => setdefault_append om r (c, val)) [] d)
    as om eqn:Eom. clear Eom. simpl. unfold setdefault_append.
  rewrite dict_get_setitem, app_nil_r.
  destruct (decide (k = r)) as [->|Hne].
  - rewrite decide_True by done. simpl. rewrite IH1. split; [done|].
    split; [done|]. intros E. by apply app_eq_nil in E as [_ ?].
  - rewrite decide_False by done. rewrite !app_nil_r. done.
Qed.

Lemma other_map_Some d k l :
  Py.dict_get (build_other_map d) k = Some l -> l = row_of d k.
Proof. intros E. rewrite <- (proj1 (other_map_lookup d k)), E. done. Qed.

Lemma accum_app op d l1 l2 : accum op d (l1 ++ l2) = accum op (accum op d l1) l2.
Proof. unfold accum. by rewrite foldl_app. Qed.

Lemma accum_flat_map {X} op (g : X -> list (coord * Z)) l d :
  foldl (fun d x => accum op d (g x)) d l = accum op d (flat_map g l).
Proof.
  revert d. induction l as [|x l IH]; intros d; simpl; [done|].
  by rewrite IH, accum_app.
Qed.

Lemma inner_loop_run (h : heap) R C i val1 (l : list (Z * Z)) d :
  0 <= i < R -> Forall (fun jv : Z * Z => 0 <= jv.1 < C) l ->
  for_ l (fun '(j, val2) =>
            cur <- get (length h) i j ;; set (length h) i j (cur + val1 * val2))
       (h ++ [mkSparseMatrix R C d]) =
  (Ok tt, h ++ [mkSparseMatrix R C (accum Z.add d (row_products i val1 l))]).
Proof.
  intros Hi. revert d. induction l as [|[j v2] l IH]; intros d Hl; simpl; [done|].
  apply Forall_cons in Hl as [Hj Hl]. simpl in Hj.
  unfold bind at 1. unfold bind at 1. rewrite get_new_run, set_new_run.
  rewrite (proj2 (in_range_true _ _ _)) by (simpl; lia).
  by rewrite IH.
Qed.

Lemma align_test A B : negb (cols A =? rows B) = false <-> cols A = rows B.
Proof. lia. Qed.

Lemma matmul_run (h : heap) a b A B :
  h !! a = Some A -> h !! b = Some B ->
  in_bounds A -> in_bounds B -> cols A = rows B ->
  __matmul__ a b h =
  (Ok (length h), h ++ [mkSparseMatrix (rows A) (cols B) (matmul_data (data A) (data B))]).
Proof.
  intros Ea Eb BA BB S. unfold __matmul__.
  unfold bind at 1. rewrite (deref_run _ _ _ Ea).
  unfold bind at 1. rewrite (deref_run _ _ _ Eb).
  rewrite (proj2 (align_test A B) S).
  unfold bind at 1. unfold __init__.
  unfold bind at 1. rewrite (deref_run _ _ _ (lookup_old_object _ _ _ _ Eb)).
  unfold bind at 1. rewrite (deref_run _ _ _ (lookup_old_object _ _ _ _ Ea)).
  unfold bind at 1.
  rewrite (for_fold_run (data A) _
             (fun d x => accum Z.add d (entry_products (build_other_map (data B)) x))).
  - unfold matmul_data, products. by rewrite accum_flat_map.
  - intros [[i k] v1] d Hx. unfold entry_products. simpl.
    destruct (Py.dict_get (build_other_map (data B)) k) as [l|] eqn:El; [|done].
    apply inner_loop_run.
    + unfold in_bounds in BA. rewrite Forall_forall in BA.
      apply BA in Hx. simpl in Hx. lia.
    + apply other_map_Some in El. subst l. apply Forall_forall.
      intros [j v2] Hj. apply row_of_elem in Hj.
      unfold in_bounds in BB. rewrite Forall_forall in BB.
      apply BB in Hj. simpl in *. lia.
Qed.

Lemma matmul_mismatch (h : heap) a b A B :
  h !! a = Some A -> h !! b = Some B -> cols A <> rows B ->
  __matmul__ a b h = (Raise DimensionAlignmentMismatch, h).
Proof.
  intros Ea Eb S. unfold __matmul__, bind.
  rewrite (deref_run _ _ _ Ea), (deref_run _ _ _ Eb).
  destruct (negb (cols A =? rows B)) eqn:T; [done|]. by apply align_test in T.
Qed.

(** *** The dot product *)

Lemma Zsum_point (f g : Z -> Z) (k0 : Z) (l : list Z) :
  NoDup l -> k0 ∈ l ->
  Zsum ((fun k => if decide (k = k0) then f k else g k) <$> l) =
  f k0 - g k0 + Zsum (g <$> l).
Proof.
  induction l as [|x l IH]; csimpl.
  - intros _ E. by apply elem_of_nil in E.
  - intros [N1 N2]%NoDup_cons [E|E]%elem_of_cons.
    + subst x. rewrite decide_True by done.
      assert (forall l', k0 ∉ l' ->
        Zsum ((fun k => if decide (k = k0) then f k else g k) <$> l') = Zsum (g <$> l'))
        as Hrest.
      { clear. induction l' as [|y l' IH]; csimpl; [done|].
        intros [??]%not_elem_of_cons. rewrite decide_False by done.
        by rewrite IH. }
      rewrite Hrest by done. lia.
    + destruct (decide (x = k0)) as [->|Hx]; [done|]. rewrite IH by done. lia.
Qed.

Lemma Zsum_ext (f g : Z -> Z) (l : list Z) :
  (forall k, k ∈ l -> f k = g k) -> Zsum (f <$> l) = Zsum (g <$> l).
Proof.
  induction l as [|x l IH]; csimpl; [done|].
  intros E. rewrite E by left. rewrite IH; [done|]. intros k Hk. apply E. by right.
Qed.

Lemma row_sum_dense (d : Py.dict coord Z) (i : Z) (g : Z -> Z) (C : Z) :
  NoDup (Py.dict_keys d) ->
  Forall (fun e : coord * Z => 0 <= e.1.2 < C) d ->
  row_sum d i g = Zsum ((fun k => vget d (i, k) * g k) <$> seqZ 0 C).
Proof.
  unfold Py.dict_keys. induction d as [|[[i0 k0] v0] d IH]; simpl.
  - intros _ _. induction (seqZ 0 C) as [|x l IHl]; csimpl; [done|].
    rewrite <- IHl. unfold vget. simpl. lia.
  - intros [N1 N2]%NoDup_cons [B1 B2]%Forall_cons. simpl in B1.
    rewrite IH by done.
    apply dict_get_None in N1.
    destruct (decide (i0 = i)) as [->|Hne].
    + rewrite (Zsum_ext (fun k => vget (((i, k0), v0) :: d) (i, k) * g k)
                 (fun k => if decide (k = k0) then v0 * g k
                           else vget d (i, k) * g k)).
      * rewrite Zsum_point.
        -- replace (vget d (i, k0)) with 0 by (unfold vget; by rewrite N1). lia.
        -- apply NoDup_seqZ.
        -- apply elem_of_seqZ. lia.
      * intros k _. unfold vget. simpl.
        destruct (decide (k = k0)) as [->|Hk].
        -- by rewrite decide_True.
        -- rewrite decide_False by congruence. done.
    + rewrite Z.add_0_l. apply Zsum_ext. intros k _. unfold vget. simpl.
      rewrite decide_False by congruence. done.
Qed.

Lemma sum_key_row_products i' v1 d k i j :
  sum_key (row_products i' v1 (row_of d k)) (i, j) =
  if decide (i' = i) then v1 * sum_key d (k, j) else 0.
Proof.
  unfold row_products. induction d as [|[[r c] w] d IH]; simpl.
  - case_decide; lia.
  - rewrite fmap_app, sum_key_app, IH.
    destruct (decide (r = k)) as [->|Hr]; simpl.
    + destruct (decide (i' = i)) as [->|Hi].
      * destruct (decide (c = j)) as [->|Hc].
        -- rewrite !decide_True by done. lia.
        -- rewrite !decide_False by congruence. lia.
      * rewrite decide_False by congruence. lia.
    + rewrite (decide_False (P := (r, c) = (k, j))) by congruence.
      case_decide; lia.
Qed.

Lemma sum_key_products dA dB i j :
  NoDup (Py.dict_keys dB) ->
  sum_key (products dA (build_other_map dB)) (i, j) =
  row_sum dA i (fun k => vget dB (k, j)).
Proof.
  intros NB. unfold products.
  induction dA as [|[[i' k] v1] dA IH]; simpl; [done|].
  rewrite sum_key_app, IH. f_equal.
  unfold entry_products. simpl.
  destruct (Py.dict_get (build_other_map dB) k) as [l|] eqn:El.
  - apply other_map_Some in El. subst l.
    rewrite sum_key_row_products. by rewrite sum_key_NoDup.
  - apply other_map_lookup in El.
    pose proof (sum_key_row_products i' v1 dB k i j) as E.
    rewrite El in E. rewrite (sum_key_NoDup dB) in E by done. by rewrite <- E.
Qed.

(** Every cell of the product reads as the dot product. *)
Lemma vget_matmul_data A B i j :
  unique_keys A -> unique_keys B ->
  Forall (fun e : coord * Z => 0 <= e.1.2 < cols A) (data A) ->
  vget (matmul_data (data A) (data B)) (i, j) = dot A B i j.
Proof.
  intros NA NB BA. unfold matmul_data.
  rewrite vget_accum_add by apply NoDup_nil_2.
  rewrite vget_nil, Z.add_0_l, sum_key_products by done.
  unfold dot, mget. by apply row_sum_dense.
Qed.

(** ** Strings *)

#[local] Arguments String.append !s1 s2 : simpl nomatch.

Lemma chars_all_impl (p q : ascii -> bool) s :
  (forall c, p c = true -> q c = true) -> chars_all p s = true -> chars_all q s = true.
Proof.
  intros Hpq. induction s as [|c s IH]; simpl; [done|].
  rewrite !andb_true_iff. intros [? ?]. auto.
Qed.

Lemma chars_all_app p s1 s2 :
  chars_all p (s1 +:+ s2) = chars_all p s1 && chars_all p s2.
Proof. induction s1 as [|c s1 IH]; simpl; [done|]. by rewrite IH, andb_assoc. Qed.

Lemma append_nil_r s : s +:+ EmptyString = s.
Proof. induction s as [|c s IH]; simpl; [done|]. by rewrite IH. Qed.

Lemma append_assoc s1 s2 s3 : (s1 +:+ s2) +:+ s3 = s1 +:+ (s2 +:+ s3).
Proof. induction s1 as [|c s1 IH]; simpl; [done|]. by rewrite IH. Qed.

Lemma lstrip_by_app sp s1 s2 :
  s1 <> EmptyString -> Py.lstrip_by sp s1 = s1 -> Py.lstrip_by sp (s1 +:+ s2) = s1 +:+ s2.
Proof.
  destruct s1 as [|c s1]; [done|]. intros _. simpl.
  destruct (sp c); [|done]. intros E.
  assert (String.length (Py.lstrip_by sp s1) <= String.length s1)%nat as L.
  { clear. induction s1 as [|c s1 IH]; simpl; [lia|]. destruct (sp c); simpl; lia. }
  rewrite E in L. simpl in L. lia.
Qed.

Lemma rstrip_by_app sp s1 s2 :
  Py.rstrip_by sp s2 <> EmptyString ->
  Py.rstrip_by sp (s1 +:+ s2) = s1 +:+ Py.rstrip_by sp s2.
Proof.
  intros N. induction s1 as [|c s1 IH]; simpl; [done|].
  rewrite IH. destruct (s1 +:+ Py.rstrip_by sp s2) eqn:E; [|done].
  destruct s1; simpl in E; [done|discriminate].
Qed.

Lemma rstrip_by_space_end sp s c :
  sp c = true -> Py.rstrip_by sp (s +:+ String c EmptyString) = Py.rstrip_by sp s.
Proof.
  intros Hc. induction s as [|c' s IH]; simpl.
  - by rewrite Hc.
  - by rewrite IH.
Qed.

Lemma rstrip_by_none sp s :
  chars_all (fun c => negb (sp c)) s = true -> Py.rstrip_by sp s = s.
Proof.
  induction s as [|c s IH]; simpl; [done|].
  rewrite andb_true_iff, negb_true_iff. intros [Hc Hs]. rewrite IH by done.
  rewrite Hc. by destruct s.
Qed.

Lemma lstrip_by_none sp s :
  chars_all (fun c => negb (sp c)) s = true -> Py.lstrip_by sp s = s.
Proof.
  destruct s as [|c s]; simpl; [done|].
  rewrite andb_true_iff, negb_true_iff. by intros [-> _].
Qed.

Lemma strip_clean l :
  clean_line l -> Py.strip l = l /\ Py.strip (l +:+ nl) = l.
Proof.
  intros (Hne & _ & HL & HR). unfold Py.strip. split.
  - by rewrite HL.
  - rewrite lstrip_by_app by done. unfold nl.
    rewrite rstrip_by_space_end by done. done.
Qed.

Lemma readlines_line l rest :
  chars_all (fun c => negb (Ascii.eqb c Py.newline)) l = true ->
  Py.readlines (l +:+ String Py.newline rest) = (l +:+ nl) :: Py.readlines rest.
Proof.
  induction l as [|c l IH]; simpl; [done|].
  rewrite andb_true_iff, negb_true_iff. intros [Hc Hl]. rewrite Hc.
  rewrite IH by done. by destruct l.
Qed.

Lemma readlines_last l :
  l <> EmptyString ->
  chars_all (fun c => negb (Ascii.eqb c Py.newline)) l = true ->
  Py.readlines l = [l].
Proof.
  induction l as [|c l IH]; [done|]. intros _. simpl.
  rewrite andb_true_iff, negb_true_iff. intros [Hc Hl]. rewrite Hc.
  destruct l as [|c' l]; [done|]. by rewrite IH.
Qed.

(** Reading back lines joined by newlines gives the lines. *)
Lemma surviving_lines_join (L : list string) :
  Forall clean_line L -> surviving_lines (Py.join nl L) = L.
Proof.
  unfold surviving_lines. induction L as [|x L IH]; [done|].
  intros [Hx HL]%Forall_cons. destruct L as [|y L].
  - simpl. destruct Hx as (Hne & Hnl & HLs & HRs).
    rewrite readlines_last by done. simpl.
    unfold Py.strip. rewrite HLs, HRs. by rewrite filter_cons, decide_True.
  - change (Py.join nl (x :: y :: L))
      with (x +:+ String Py.newline (Py.join nl (y :: L))).
    rewrite readlines_line by apply Hx. rewrite fmap_cons.
    rewrite (proj2 (strip_clean x Hx)).
    rewrite filter_cons, decide_True by apply Hx. by rewrite IH.
Qed.

Lemma split_none sep s :
  chars_all (fun c => negb (Ascii.eqb c sep)) s = true -> Py.split sep s = [s].
Proof.
  induction s as [|c s IH]; simpl; [done|].
  rewrite andb_true_iff, negb_true_iff. intros [-> Hs]. by rewrite IH.
Qed.

Lemma split_app sep s1 s2 :
  chars_all (fun c => negb (Ascii.eqb c sep)) s1 = true ->
  Py.split sep (s1 +:+ String sep s2) = s1 :: Py.split sep s2.
Proof.
  induction s1 as [|c s1 IH]; simpl.
  - intros _. by rewrite Ascii.eqb_refl.
  - rewrite andb_true_iff, negb_true_iff. intros [-> Hs]. by rewrite IH.
Qed.

Lemma endswith_cons c s p :
  Py.endswith (String c s) p =
  if String.eqb (String c s) p then true else Py.endswith s p.
Proof. done. Qed.

Lemma endswith_app s1 s2 p :
  Py.endswith s2 p = true -> Py.endswith (s1 +:+ s2) p = true.
Proof.
  intros E. induction s1 as [|c s1 IH]; [done|].
  change (String c s1 +:+ s2) with (String c (s1 +:+ s2)).
  rewrite endswith_cons, IH. by destruct (String.eqb _ p).
Qed.

Lemma init_app s1 s2 :
  s2 <> EmptyString -> Py.init (s1 +:+ s2) = s1 +:+ Py.init s2.
Proof.
  intros N. induction s1 as [|c s1 IH]; simpl; [done|].
  rewrite IH. destruct (s1 +:+ s2) eqn:E; [|done].
  destruct s1; simpl in E; [done|discriminate].
Qed.

(** *** [int] and [str] *)

Lemma digits_uint d acc seen :
  d <> Decimal.Nil \/ seen = true ->
  Py.digits acc seen (NilEmpty.string_of_uint d) = Some (uint_val acc d).
Proof.
  revert acc seen. induction d; intros acc seen H; simpl;
    try (apply IHd; by right).
  destruct H as [?| ->]; done.
Qed.

Lemma uint_val_pos d (acc : positive) :
  uint_val (Z.pos acc) d = Z.pos (Pos.of_uint_acc d acc).
Proof.
  revert acc. induction d; intros acc; simpl; [done|..].
  - rewrite <- IHd. f_equal.
  - rewrite <- IHd. f_equal; lia.
  - rewrite <- IHd. f_equal; lia.
  - rewrite <- IHd. f_equal; lia.
  - rewrite <- IHd. f_equal; lia.
  - rewrite <- IHd. f_equal; lia.
  - rewrite <- IHd. f_equal; lia.
  - rewrite <- IHd. f_equal; lia.
  - rewrite <- IHd. f_equal; lia.
  - rewrite <- IHd. f_equal; lia.
Qed.

Lemma uint_val_0 d : uint_val 0 d = Z.of_N (Pos.of_uint d).
Proof.
  induction d; simpl; [done|done|..]; by rewrite <- uint_val_pos.
Qed.

Lemma to_uint_val p : uint_val 0 (Pos.to_uint p) = Z.pos p.
Proof.
  rewrite uint_val_0. exact (DecimalZ.of_to (Z.pos p)).
Qed.

Lemma to_uint_not_nil p : Pos.to_uint p <> Decimal.Nil.
Proof.
  intros E. pose proof (to_uint_val p) as H. rewrite E in H. discriminate.
Qed.

Lemma uint_chars d : chars_all Py.isdigit (NilEmpty.string_of_uint d) = true.
Proof. induction d; simpl; done. Qed.

Lemma str_chars z : chars_all sign_or_digit (Py.str z) = true.
Proof.
  assert (forall d, chars_all sign_or_digit (NilZero.string_of_uint d) = true) as H.
  { intros d. destruct d; try done;
      apply (chars_all_impl Py.isdigit); try apply (uint_chars (_ d));
      intros c Hc; unfold sign_or_digit; by rewrite Hc. }
  destruct z; simpl; [done| apply H | apply H].
Qed.

Lemma str_not_empty z : Py.str z <> EmptyString.
Proof.
  destruct z as [|p|p]; [done| |done].
  unfold Py.str. simpl. pose proof (to_uint_not_nil p).
  destruct (Pos.to_uint p); done.
Qed.

Lemma sign_or_digit_cases c :
  sign_or_digit c = true ->
  Py.isspace c = false /\ Py.int_space c = false /\
  Ascii.eqb c Py.newline = false /\ Ascii.eqb c "," = false /\
  Ascii.eqb c "=" = false /\ Ascii.eqb c "+" = false.
Proof.
  destruct c as [[] [] [] [] [] [] [] []]; vm_compute; intros; try done.
Qed.

Lemma str_no (p : ascii -> bool) z :
  (forall c, sign_or_digit c = true -> p c = false) ->
  chars_all (fun c => negb (p c)) (Py.str z) = true.
Proof.
  intros H. apply (chars_all_impl sign_or_digit); [|apply str_chars].
  intros c Hc. by rewrite H.
Qed.

(** [int(str(z)) == z] *)
Lemma int_str z : Py.int (Py.str z) = Some z.
Proof.
  unfold Py.int.
  rewrite lstrip_by_none, rstrip_by_none
    by (apply str_no; intros c Hc; apply sign_or_digit_cases in Hc; tauto).
  destruct z as [|p|p]; [done| |].
  - unfold Py.str. simpl. pose proof (to_uint_not_nil p) as N.
    pose proof (digits_uint (Pos.to_uint p) 0 false (or_introl N)) as D.
    rewrite to_uint_val in D.
    destruct (Pos.to_uint p); try done; simpl in *; exact D.
  - unfold Py.str. simpl. pose proof (to_uint_not_nil p) as N.
    pose proof (digits_uint (Pos.to_uint p) 0 false (or_introl N)) as D.
    rewrite to_uint_val in D.
    replace (NilZero.string_of_uint (Pos.to_uint p))
      with (NilEmpty.string_of_uint (Pos.to_uint p))
      by (destruct (Pos.to_uint p); done).
    by rewrite D.
Qed.

(** *** The lines [__str__] writes *)

Lemma append_not_empty_r s1 s2 : s2 <> EmptyString -> s1 +:+ s2 <> EmptyString.
Proof. destruct s1; simpl; [done|discriminate]. Qed.

Lemma append_not_empty_l s1 s2 : s1 <> EmptyString -> s1 +:+ s2 <> EmptyString.
Proof. destruct s1; simpl; [done|discriminate]. Qed.

Lemma rclean_app s1 s2 : rclean s2 -> rclean (s1 +:+ s2).
Proof.
  intros [E N]. split; [|by apply append_not_empty_r].
  rewrite rstrip_by_app; rewrite E; done.
Qed.

Lemma rclean_str z : rclean (Py.str z).
Proof.
  split; [|apply str_not_empty]. apply rstrip_by_none, str_no.
  intros c Hc. apply sign_or_digit_cases in Hc. tauto.
Qed.

Lemma strip_str z : Py.strip (Py.str z) = Py.str z.
Proof.
  unfold Py.strip. rewrite lstrip_by_none.
  - apply rclean_str.
  - apply str_no. intros c Hc. apply sign_or_digit_cases in Hc. tauto.
Qed.

Lemma strip_space_str z : Py.strip (" " +:+ Py.str z) = Py.str z.
Proof. exact (strip_str z). Qed.

Lemma prefix_nil s : String.prefix EmptyString s = true.
Proof. by destruct s. Qed.

Lemma no_newline_str z :
  chars_all (fun c => negb (Ascii.eqb c Py.newline)) (Py.str z) = true.
Proof. apply str_no. intros c Hc. apply sign_or_digit_cases in Hc. tauto. Qed.

Lemma clean_header (key : string) z :
  key <> EmptyString ->
  chars_all (fun c => negb (Py.isspace c) && negb (Ascii.eqb c Py.newline)) key = true ->
  clean_line (key +:+ Py.str z).
Proof.
  intros Hne Hk. split; [|split; [|split]].
  - by apply append_not_empty_l.
  - rewrite chars_all_app, no_newline_str, andb_true_r.
    revert Hk. apply chars_all_impl. intros c. rewrite andb_true_iff. tauto.
  - apply lstrip_by_app; [done|]. apply lstrip_by_none.
    revert Hk. apply chars_all_impl. intros c. rewrite andb_true_iff. tauto.
  - apply rclean_app, rclean_str.
Qed.

Lemma clean_entry r c v : clean_line (format_entry r c v).
Proof.
  unfold format_entry. split; [done|]. split; [|split].
  - rewrite !chars_all_app, !no_newline_str. done.
  - done.
  - apply (rclean_app "("). do 5 apply rclean_app. done.
Qed.

Lemma header_int_str (key : string) z :
  chars_all (fun c => negb (Ascii.eqb c "=")) key = true ->
  header_int (key +:+ "=" +:+ Py.str z) = Some z.
Proof.
  intros Hk. unfold header_int.
  change (key +:+ "=" +:+ Py.str z) with (key +:+ String "=" (Py.str z)).
  rewrite split_app by done. rewrite split_none.
  - apply int_str.
  - apply str_no. intros c Hc. apply sign_or_digit_cases in Hc. tauto.
Qed.

Lemma no_comma_str z :
  chars_all (fun c => negb (Ascii.eqb c ",")) (Py.str z) = true.
Proof. apply str_no. intros c Hc. apply sign_or_digit_cases in Hc. tauto. Qed.

Lemma format_entry_inner r c v :
  format_entry r c v =
  String "(" ((Py.str r +:+ ", " +:+ Py.str c +:+ ", " +:+ Py.str v) +:+ ")").
Proof. unfold format_entry. by rewrite !append_assoc. Qed.

Lemma slice_format r c v :
  Py.slice_1_m1 (format_entry r c v) =
  Py.str r +:+ ", " +:+ Py.str c +:+ ", " +:+ Py.str v.
Proof.
  rewrite format_entry_inner. unfold Py.slice_1_m1, Py.tail.
  rewrite init_app by done. change (Py.init ")") with EmptyString.
  by rewrite append_nil_r.
Qed.

Lemma parse_triple_format r c v : parse_triple (format_entry r c v) = Some (r, c, v).
Proof.
  unfold parse_triple. rewrite slice_format.
  change (Py.str r +:+ ", " +:+ Py.str c +:+ ", " +:+ Py.str v)
    with (Py.str r +:+ String "," ((" " +:+ Py.str c) +:+ String "," (" " +:+ Py.str v))).
  rewrite split_app by apply no_comma_str.
  rewrite split_app by (simpl; apply no_comma_str).
  rewrite split_none by (simpl; apply no_comma_str).
  rewrite !fmap_cons, fmap_nil.
  by rewrite strip_str, !strip_space_str, !int_str.
Qed.

Lemma entry_triple_format R C r c v :
  0 <= r < R -> 0 <= c < C ->
  entry_triple R C (format_entry r c v) = Some (r, c, v).
Proof.
  intros Hr Hc. unfold entry_triple. rewrite parse_triple_format.
  replace (Py.startswith (format_entry r c v) "(") with true
    by (unfold format_entry, Py.startswith; simpl; by rewrite prefix_nil).
  replace (Py.endswith (format_entry r c v) ")") with true
    by (unfold format_entry; symmetry; by do 6 apply endswith_app).
  simpl. replace ((0 <=? r) && (r <? R) && ((0 <=? c) && (c <? C))) with true by lia.
  done.
Qed.

(** *** Running [load_from] and [__str__] *)

Lemma load_entry_run (h : heap) R C d entry :
  load_entry (length h) R C entry (h ++ [mkSparseMatrix R C d]) =
  match entry_triple R C entry with
  | Some (r, c, v) => (Ok tt, h ++ [mkSparseMatrix R C (store_set d (r, c) v)])
  | None => (Raise MalformedEntry, h ++ [mkSparseMatrix R C d])
  end.
Proof.
  unfold load_entry, entry_triple.
  destruct (Py.startswith entry "(" && Py.endswith entry ")"); simpl; [|done].
  destruct (parse_triple entry) as [[[r c] v]|]; [|done].
  destruct ((0 <=? r) && (r <? R) && ((0 <=? c) && (c <? C))) eqn:T; simpl; [|done].
  rewrite set_new_run. unfold in_range. simpl. by rewrite T.
Qed.

Lemma load_loop_run (h : heap) R C body d :
  for_ body (load_entry (length h) R C) (h ++ [mkSparseMatrix R C d]) =
  (if forallb (entry_ok R C) body then Ok tt else Raise MalformedEntry,
   h ++ [mkSparseMatrix R C (load_data R C d body)]).
Proof.
  revert d. induction body as [|e body IH]; intros d; simpl; [done|].
  unfold bind, entry_ok at 1. rewrite load_entry_run.
  destruct (entry_triple R C e) as [[[r c] v]|]; simpl; [|done].
  apply IH.
Qed.

(** What [load_from] does once the two header lines are accepted. *)
Lemma load_from_run (h : heap) txt l0 l1 body R C :
  surviving_lines txt = l0 :: l1 :: body ->
  Py.startswith l0 "rows=" = true -> Py.startswith l1 "cols=" = true ->
  header_int l0 = Some R -> header_int l1 = Some C ->
  load_from (Text txt) h =
  (if forallb (entry_ok R C) body then Ok (length h) else Raise MalformedEntry,
   h ++ [mkSparseMatrix R C (load_data R C [] body)]).
Proof.
  intros E S0 S1 HR HC. unfold load_from. rewrite E, S0, S1, HR, HC. simpl.
  unfold bind at 1. unfold __init__. unfold bind at 1.
  rewrite load_loop_run. by destruct (forallb _ _).
Qed.


Lemma load_data_format R C es d :
  Forall (fun e : coord * Z => 0 <= e.1.1 < R /\ 0 <= e.1.2 < C) es ->
  load_data R C d ((fun e : coord * Z => format_entry e.1.1 e.1.2 e.2) <$> es) =
    copy_into d es /\
  forallb (entry_ok R C) ((fun e : coord * Z => format_entry e.1.1 e.1.2 e.2) <$> es) = true.
Proof.
  revert d. induction es as [|[[r c] v] es IH]; intros d Hb; [done|].
  apply Forall_cons in Hb as [[Hr Hc] Hb]. simpl in Hr, Hc.
  rewrite fmap_cons. simpl. unfold entry_ok at 1.
  rewrite entry_triple_format by done. simpl. by apply IH.
Qed.

Lemma copy_into_fresh d es :
  NoDup (Py.dict_keys (d ++ es)) ->
  Forall (fun e : coord * Z => e.2 <> 0) es ->
  copy_into d es = d ++ es.
Proof.
  revert d. induction es as [|[k v] es IH]; intros d N Hz; simpl.
  - by rewrite app_nil_r.
  - apply Forall_cons in Hz as [Hv Hz]. simpl in Hv.
    unfold store_set. rewrite (proj2 (Z.eqb_neq v 0)) by done.
    assert (k ∉ Py.dict_keys d) as Hk.
    { unfold Py.dict_keys in *. rewrite fmap_app, fmap_cons in N.
      apply NoDup_app in N as (_ & N & _). intros Hin.
      apply (N k Hin). left. }
    rewrite dict_setitem_new by done. rewrite IH; [|by rewrite <- (assoc_L (++))|done].
    by rewrite <- (assoc_L (++)).
Qed.

#[global] Instance tuple_le_trans : Transitive Py.tuple_le.
Proof. intros [??] [??] [??]. unfold Py.tuple_le. simpl. lia. Qed.

#[global] Instance tuple_le_total : Total Py.tuple_le.
Proof. intros [??] [??]. unfold Py.tuple_le. simpl. lia. Qed.


Lemma sorted_entries_Permutation d :
  NoDup (Py.dict_keys d) -> sorted_entries d ≡ₚ d.
Proof.
  intros N. unfold sorted_entries, Py.sorted.
  rewrite merge_sort_Permutation. unfold Py.dict_keys.
  rewrite <- list_fmap_compose.
  rewrite (list_fmap_ext _ id); [by rewrite list_fmap_id|].
  intros i [k v] Hi. simpl. f_equal. unfold vget.
  rewrite (elem_dict_get d k v); [done|done|]. by eapply list_elem_of_lookup_2.
Qed.

Lemma entry_lines_run d ks :
  (forall k, k ∈ ks -> k ∈ Py.dict_keys d) ->
  entry_lines d ks =
  Some ((fun k => format_entry k.1 k.2 (vget d k)) <$> ks).
Proof.
  induction ks as [|k ks IH]; intros Hk; [done|].
  rewrite fmap_cons. simpl.
  assert (entry_line d k = Some (format_entry k.1 k.2 (vget d k))) as ->.
  { unfold entry_line, vget. destruct (Py.dict_get d k) eqn:E; [done|].
    apply dict_get_None in E. destruct E. apply Hk. left. }
  by rewrite IH by (intros; apply Hk; by right).
Qed.

Lemma str_run (h : heap) o m :
  h !! o = Some m ->
  __str__ o h = (Ok (serialized (rows m) (cols m) (sorted_entries (data m))), h).
Proof.
  intros E. unfold __str__, bind. rewrite (deref_run _ _ _ E).
  rewrite entry_lines_run.
  - unfold serialized, sorted_entries, ret. by rewrite <- list_fmap_compose.
  - intros k Hk. unfold Py.sorted in Hk. by rewrite merge_sort_Permutation in Hk.
Qed.

(** ** Frames *)

Lemma new_only_ret (h : heap) {A} (P : A -> Prop) a : P a -> new_only h P (ret a).
Proof. intros Ha m. exists m. split; [done|]. by intros r [= <-]. Qed.

Lemma new_only_raise (h : heap) {A} (P : A -> Prop) e : new_only h P (raise e).
Proof. intros m. exists m. split; [done|]. by intros r [=]. Qed.

Lemma new_only_deref (h : heap) o : new_only h (fun _ => True) (deref o).
Proof. intros m. exists m. unfold deref. by destruct (_ !! o). Qed.

Lemma new_only_get (h : heap) r c : new_only h (fun _ => True) (get (length h) r c).
Proof.
  intros m. exists m. by rewrite (get_run _ _ _ _ _ (lookup_new_object h m)).
Qed.

Lemma new_only_set (h : heap) r c v : new_only h (fun _ => True) (set (length h) r c v).
Proof.
  intros m. rewrite (set_run _ _ _ _ _ _ (lookup_new_object h m)).
  destruct (in_range m r c).
  - eexists. by rewrite insert_new_object.
  - by exists m.
Qed.

Lemma new_only_bind (h : heap) {A B} (Q : A -> Prop) (P : B -> Prop)
    (c : M A) (f : A -> M B) :
  new_only h Q c -> (forall a, Q a -> new_only h P (f a)) -> new_only h P (bind c f).
Proof.
  intros Hc Hf m. unfold bind. destruct (Hc m) as (m1 & E1 & R1).
  destruct (c (h ++ [m])) as [[a|e] h1]; simpl in *; subst h1.
  - apply Hf. by apply R1.
  - exists m1. by split.
Qed.

Lemma new_only_for (h : heap) {X} (l : list X) (body : X -> M unit) :
  (forall x, new_only h (fun _ => True) (body x)) ->
  new_only h (fun _ => True) (for_ l body).
Proof.
  intros Hb. induction l as [|x l IH]; simpl.
  - by apply new_only_ret.
  - eapply new_only_bind; [apply Hb|]. intros _ _. apply IH.
Qed.

Lemma new_only_weaken (h : heap) {A} (P : A -> Prop) (c : M A) :
  new_only h P c -> new_only h (fun _ => True) c.
Proof. intros Hc m. destruct (Hc m) as (m' & ? & _). by exists m'. Qed.

(** The part of [__add__] and [__sub__] that follows the allocation. *)
Lemma new_only_add_sub (op : Z -> Z -> Z) (h : heap) a b :
  new_only h (fun r => r = length h)
    (s <- deref a ;;
     for_ (data s) (fun '((r, c), val) => set (length h) r c val) ;;
     o <- deref b ;;
     for_ (data o) (fun '((r, c), val) =>
       cur <- get (length h) r c ;; set (length h) r c (op cur val)) ;;
     ret (length h)).
Proof.
  eapply new_only_bind; [apply new_only_deref|]. intros s _.
  eapply new_only_bind.
  { apply new_only_for. intros [[r c] v]. apply new_only_set. }
  intros _ _. eapply new_only_bind; [apply new_only_deref|]. intros o _.
  eapply new_only_bind.
  { apply new_only_for. intros [[r c] v].
    eapply new_only_bind; [apply new_only_get|]. intros cur _. apply new_only_set. }
  intros _ _. by apply new_only_ret.
Qed.

Lemma new_only_matmul (h : heap) a b :
  new_only h (fun r => r = length h)
    (o <- deref b ;;
     let other_map := build_other_map (data o) in
     s <- deref a ;;
     for_ (data s) (fun '((i, k), val1) =>
       match Py.dict_get other_map k with
       | Some l =>
           for_ l (fun '(j, val2) =>
             cur <- get (length h) i j ;; set (length h) i j (cur + val1 * val2))
       | None => ret tt
       end) ;;
     ret (length h)).
Proof.
  eapply new_only_bind; [apply new_only_deref|]. intros o _. simpl.
  eapply new_only_bind; [apply new_only_deref|]. intros s _.
  eapply new_only_bind.
  { apply new_only_for. intros [[i k] v1].
    destruct (Py.dict_get _ k); [|by apply new_only_ret].
    apply new_only_for. intros [j v2].
    eapply new_only_bind; [apply new_only_get|]. intros cur _. apply new_only_set. }
  intros _ _. by apply new_only_ret.
Qed.

(** From "only the new object changes" to the frame of a method: the
    method either raises before it allocates, or allocates and then works on
    the new object only. *)
Lemma keeps_cases (h : heap) (a b : ref) (x : outcome ref * heap) :
  (exists e, x = (Raise e, h)) \/
  (is_Some (h !! a) /\ is_Some (h !! b) /\
   exists m0 k, new_only h (fun r => r = length h) k /\ x = k (h ++ [m0])) ->
  (forall o m, h !! o = Some m -> x.2 !! o = Some m) /\
  (forall r, x.1 = Ok r -> h !! r = None /\ is_Some (x.2 !! r) /\ r <> a /\ r <> b).
Proof.
  intros [[e ->]|([A Ea] & [B Eb] & m0 & k & Hk & ->)].
  - split; [done|]. intros r [=].
  - destruct (Hk m0) as (m' & E & R).
    destruct (k (h ++ [m0])) as [res h1]. simpl in *. subst h1. split.
    + intros o m Ho. by apply lookup_old_object.
    + intros r Hr. apply R in Hr. subst r.
      apply lookup_lt_Some in Ea, Eb.
      split; [apply lookup_ge_None; lia|].
      split; [by rewrite lookup_new_object|]. lia.
Qed.

Lemma add_sub_keeps (op : Z -> Z -> Z) :
  keeps_operands (fun self other =>
    s <- deref self ;; o <- deref other ;;
    if negb (rows s =? rows o) || negb (cols s =? cols o)
    then raise (ValueError "Matrix dimensions must match")
    else
      result <- __init__ (rows s) (cols s) ;;
      s <- deref self ;;
      for_ (data s) (fun '((r, c), val) => set result r c val) ;;
      o <- deref other ;;
      for_ (data o) (fun '((r, c), val) =>
        cur <- get result r c ;; set result r c (op cur val)) ;;
      ret result).
Proof.
  intros h a b. apply keeps_cases.
  destruct (h !! a) as [A|] eqn:Ea.
  2:{ left. eexists. unfold bind, deref. by rewrite Ea. }
  destruct (h !! b) as [B|] eqn:Eb.
  2:{ left. eexists. unfold bind, deref. by rewrite Ea, Eb. }
  destruct (negb (rows A =? rows B) || negb (cols A =? cols B)) eqn:T.
  { left. eexists. unfold bind, deref. by rewrite Ea, Eb, T. }
  right. split; [done|]. split; [done|].
  eexists _, _. split; [apply (new_only_add_sub op h a b)|].
  unfold bind at 1. rewrite (deref_run _ _ _ Ea).
  unfold bind at 1. rewrite (deref_run _ _ _ Eb). rewrite T.
  unfold bind at 1. unfold __init__. reflexivity.
Qed.

Lemma matmul_keeps : keeps_operands __matmul__.
Proof.
  intros h a b. apply keeps_cases. unfold __matmul__.
  destruct (h !! a) as [A|] eqn:Ea.
  2:{ left. eexists. unfold bind, deref. by rewrite Ea. }
  destruct (h !! b) as [B|] eqn:Eb.
  2:{ left. eexists. unfold bind, deref. by rewrite Ea, Eb. }
  destruct (negb (cols A =? rows B)) eqn:T.
  { left. eexists. unfold bind, deref. by rewrite Ea, Eb, T. }
  right. split; [done|]. split; [done|].
  eexists _, _. split; [apply (new_only_matmul h a b)|].
  unfold bind at 1. rewrite (deref_run _ _ _ Ea).
  unfold bind at 1. rewrite (deref_run _ _ _ Eb). rewrite T.
  unfold bind at 1. unfold __init__. reflexivity.
Qed.

(** ** Validity is kept by every call *)

Lemma valid_new R C : valid (mkSparseMatrix R C []).
Proof. split; [apply NoDup_nil_2|]. split; apply Forall_nil_2. Qed.

Lemma valid_store_set m r c v :
  valid m -> in_range m r c = true ->
  valid (mkSparseMatrix (rows m) (cols m) (store_set (data m) (r, c) v)).
Proof.
  intros (N & B & Z) Hr. apply in_range_true in Hr. split; [|split].
  - by apply store_set_NoDup.
  - unfold in_bounds. simpl.
    apply (store_set_keys (fun k => 0 <= k.1 < rows m /\ 0 <= k.2 < cols m)); done.
  - by apply store_set_nonzero.
Qed.

Lemma entry_triple_bounds R C e r c v :
  entry_triple R C e = Some (r, c, v) -> 0 <= r < R /\ 0 <= c < C.
Proof.
  unfold entry_triple. destruct (_ && _); [|done].
  destruct (parse_triple e) as [[[r' c'] v']|]; [|done].
  destruct ((0 <=? r') && (r' <? R) && ((0 <=? c') && (c' <? C))) eqn:T; [|done].
  intros [= <- <- <-]. lia.
Qed.

Lemma load_data_valid R C body d :
  valid (mkSparseMatrix R C d) -> valid (mkSparseMatrix R C (load_data R C d body)).
Proof.
  revert d. induction body as [|e body IH]; intros d Hd; simpl; [done|].
  destruct (entry_triple R C e) as [[[r c] v]|] eqn:E; [|done].
  apply IH. apply entry_triple_bounds in E.
  apply (valid_store_set (mkSparseMatrix R C d)); [done|].
  by apply in_range_true.
Qed.

Lemma load_from_heap src (h : heap) :
  (load_from src h).2 = h \/
  exists R C body, (load_from src h).2 = h ++ [mkSparseMatrix R C (load_data R C [] body)].
Proof.
  destruct src as [e|txt]; [by left|].
  destruct (surviving_lines txt) as [|l0 [|l1 body]] eqn:E;
    try (left; unfold load_from; by rewrite E).
  destruct (Py.startswith l0 "rows=") eqn:S0;
    [|left; unfold load_from; by rewrite E, S0].
  destruct (Py.startswith l1 "cols=") eqn:S1;
    [|left; unfold load_from; by rewrite E, S0, S1].
  destruct (header_int l0) as [R|] eqn:HR;
    [|left; unfold load_from; by rewrite E, S0, S1, HR].
  destruct (header_int l1) as [C|] eqn:HC;
    [|left; unfold load_from; by rewrite E, S0, S1, HR, HC].
  right. exists R, C, body. by rewrite (load_from_run h txt l0 l1 body R C).
Qed.

Lemma valid_add_sub op A B :
  in_bounds A -> in_bounds B -> same_shape A B ->
  valid (mkSparseMatrix (rows A) (cols A) (accum op (copy_into [] (data A)) (data B))).
Proof.
  intros BA BB [SR SC]. split; [|split].
  - apply accum_NoDup, copy_into_NoDup, NoDup_nil_2.
  - unfold in_bounds in *. simpl.
    apply (accum_keys (fun k => 0 <= k.1 < rows A /\ 0 <= k.2 < cols A)).
    + by rewrite SR, SC.
    + apply (copy_into_keys (fun k => 0 <= k.1 < rows A /\ 0 <= k.2 < cols A));
        [done|apply Forall_nil_2].
  - apply accum_nonzero, copy_into_nonzero, Forall_nil_2.
Qed.

Lemma products_bounds A B :
  in_bounds A -> in_bounds B ->
  Forall (fun e : coord * Z => 0 <= e.1.1 < rows A /\ 0 <= e.1.2 < cols B)
    (products (data A) (build_other_map (data B))).
Proof.
  intros BA BB. unfold in_bounds in *. rewrite Forall_forall in BA, BB.
  apply Forall_forall. intros [[i j] x] Hx. unfold products in Hx.
  apply list_elem_of_In, in_flat_map in Hx as ([[i' k] v1] & HA & Hx).
  apply list_elem_of_In in HA, Hx. unfold entry_products in Hx. simpl in Hx.
  destruct (Py.dict_get _ k) as [l|] eqn:El; [|by apply elem_of_nil in Hx].
  apply other_map_Some in El. subst l. unfold row_products in Hx.
  apply list_elem_of_fmap in Hx as ([j' v2] & [= -> -> ->] & Hj).
  apply row_of_elem in Hj. apply BA in HA. apply BB in Hj. simpl in *. lia.
Qed.

Lemma valid_matmul A B :
  in_bounds A -> in_bounds B ->
  valid (mkSparseMatrix (rows A) (cols B) (matmul_data (data A) (data B))).
Proof.
  intros BA BB. unfold matmul_data. split; [|split].
  - apply accum_NoDup, NoDup_nil_2.
  - unfold in_bounds. simpl.
    apply (accum_keys (fun k => 0 <= k.1 < rows A /\ 0 <= k.2 < cols B));
      [by apply products_bounds|apply Forall_nil_2].
  - apply accum_nonzero, Forall_nil_2.
Qed.

Lemma add_sub_heap (op : Z -> Z -> Z) (h : heap) a b :
  Forall valid h ->
  Forall valid
    ((s <- deref a ;; o <- deref b ;;
      if negb (rows s =? rows o) || negb (cols s =? cols o)
      then raise (ValueError "Matrix dimensions must match")
      else
        result <- __init__ (rows s) (cols s) ;;
        s <- deref a ;;
        for_ (data s) (fun '((r, c), val) => set result r c val) ;;
        o <- deref b ;;
        for_ (data o) (fun '((r, c), val) =>
          cur <- get result r c ;; set result r c (op cur val)) ;;
        ret result) h).2.
Proof.
  intros Hh.
  destruct (h !! a) as [A|] eqn:Ea; [|unfold bind, deref; by rewrite Ea].
  destruct (h !! b) as [B|] eqn:Eb; [|unfold bind, deref; by rewrite Ea, Eb].
  pose proof (Forall_lookup_1 _ _ _ _ Hh Ea) as (_ & BA & _).
  pose proof (Forall_lookup_1 _ _ _ _ Hh Eb) as (_ & BB & _).
  destruct (decide (same_shape A B)) as [S|S].
  - rewrite (add_sub_run op h a b A B) by done. simpl.
    apply Forall_app. split; [done|]. apply Forall_singleton.
    by apply valid_add_sub.
  - by rewrite (add_sub_mismatch h a b A B).
Qed.

Lemma exec_valid c (h : heap) : Forall valid h -> Forall valid (exec c h).
Proof.
  intros Hh. destruct c as [R C|src|o r c|o r c v|a b|a b|a b|o]; simpl.
  - apply Forall_app. split; [done|]. apply Forall_singleton, valid_new.
  - destruct (load_from_heap src h) as [->|(R & C & body & ->)]; [done|].
    apply Forall_app. split; [done|]. apply Forall_singleton.
    apply load_data_valid, valid_new.
  - unfold get, bind, deref. by destruct (h !! o).
  - destruct (h !! o) as [m|] eqn:E.
    + rewrite (set_run _ _ _ _ _ _ E). destruct (in_range m r c) eqn:T; [|done].
      simpl. apply Forall_insert; [done|].
      apply valid_store_set; [|done]. by eapply Forall_lookup_1.
    + unfold set, bind, deref. by rewrite E.
  - by apply (add_sub_heap Z.add).
  - by apply (add_sub_heap Z.sub).
  - destruct (h !! a) as [A|] eqn:Ea;
      [|unfold __matmul__, bind, deref; by rewrite Ea].
    destruct (h !! b) as [B|] eqn:Eb;
      [|unfold __matmul__, bind, deref; by rewrite Ea, Eb].
    pose proof (Forall_lookup_1 _ _ _ _ Hh Ea) as (_ & BA & _).
    pose proof (Forall_lookup_1 _ _ _ _ Hh Eb) as (_ & BB & _).
    destruct (decide (cols A = rows B)) as [S|S].
    + rewrite (matmul_run h a b A B) by done. simpl.
      apply Forall_app. split; [done|]. apply Forall_singleton.
      by apply valid_matmul.
    + by rewrite (matmul_mismatch h a b A B).
  - destruct (h !! o) as [m|] eqn:E.
    + by rewrite (str_run _ _ _ E).
    + unfold __str__, bind, deref. by rewrite E.
Qed.

(** Every object of a reachable heap is a valid matrix. *)
Lemma reachable_valid (h : heap) : reachable h -> Forall valid h.
Proof.
  induction 1 as [|c h _ IH]; [apply Forall_nil_2|]. by apply exec_valid.
Qed.

(** * The claims *)

(** ** Facts shared by the claims *)

Lemma vget_Permutation d d' k :
  NoDup (Py.dict_keys d) -> d ≡ₚ d' -> vget d k = vget d' k.
Proof.
  intros N P. assert (NoDup (Py.dict_keys d')) as N'.
  { unfold Py.dict_keys in *. by rewrite <- P. }
  unfold vget. destruct (Py.dict_get d k) as [v|] eqn:E.
  - apply dict_get_Some_elem in E. rewrite P in E.
    by rewrite (elem_dict_get d' k v).
  - destruct (Py.dict_get d' k) as [v|] eqn:E'; [|done].
    apply dict_get_Some_elem in E'. rewrite <- P in E'.
    rewrite (elem_dict_get d k v) in E; done.
Qed.

Lemma vget_copy_nil src k :
  NoDup (Py.dict_keys src) -> vget (copy_into [] src) k = vget src k.
Proof.
  intros N. rewrite vget_copy_into by (done || apply NoDup_nil_2).
  unfold vget. by destruct (Py.dict_get src k).
Qed.

Lemma vget_add_data A B k :
  unique_keys A -> unique_keys B ->
  vget (add_data (data A) (data B)) k = vget (data A) k + vget (data B) k.
Proof.
  intros NA NB. unfold add_data.
  rewrite vget_accum_add by apply copy_into_NoDup, NoDup_nil_2.
  by rewrite vget_copy_nil, sum_key_NoDup.
Qed.

Lemma vget_sub_data A B k :
  unique_keys A -> unique_keys B ->
  vget (sub_data (data A) (data B)) k = vget (data A) k - vget (data B) k.
Proof.
  intros NA NB. unfold sub_data.
  rewrite vget_accum_sub by apply copy_into_NoDup, NoDup_nil_2.
  by rewrite vget_copy_nil, sum_key_NoDup.
Qed.

Lemma absent_when_zero d k :
  Forall (fun e : coord * Z => e.2 <> 0) d -> vget d k = 0 -> k ∉ Py.dict_keys d.
Proof.
  intros Hz Hk. apply dict_get_None. rewrite dict_get_vget by done.
  by rewrite decide_True.
Qed.

Lemma elementwise_holds (op : Z -> Z -> Z) (method : ref -> ref -> M ref)
    (h : heap) (a b : ref) (A B : SparseMatrix) :
  (forall k, vget (accum op (copy_into [] (data A)) (data B)) k =
             op (vget (data A) k) (vget (data B) k)) ->
  (same_shape A B ->
   method a b h =
   (Ok (length h),
    h ++ [mkSparseMatrix (rows A) (cols A) (accum op (copy_into [] (data A)) (data B))])) ->
  (~ same_shape A B -> method a b h = (Raise DimensionMismatch, h)) ->
  elementwise method op h a b A B.
Proof.
  intros Hv Hok Hbad. split; [|split].
  - destruct (decide (same_shape A B)) as [S|S].
    + rewrite Hok by done. simpl. split; [done|tauto].
    + by rewrite Hbad.
  - done.
  - intros S. eexists. rewrite Hok by done.
    split; [done|]. split; [apply lookup_ge_None; lia|].
    split; [done|]. split; [done|]. simpl. split; [|split].
    + intros r c _ _. rewrite get_new_run. do 2 f_equal. apply Hv.
    + intros r c Hz. apply absent_when_zero.
      * apply accum_nonzero, copy_into_nonzero, Forall_nil_2.
      * by rewrite Hv.
    + apply accum_nonzero, copy_into_nonzero, Forall_nil_2.
Qed.


(** ** The claims, in order *)

(** C1. For all matrices A (at [a]) and B (at [b]) that satisfy the store
    invariants, [A @ B] fails with DimensionAlignmentMismatch exactly when
    [A.cols != B.rows]; otherwise it returns a matrix of shape
    (A.rows, B.cols) whose [get(i, j)], for every in-bounds (i, j), is the
    dot product [sum over k of A.get(i,k) * B.get(k,j)].  The dot product
    does not depend on the order in which the entries of A and B are stored
    (hence iterated).  For A = 1x2 {(0,0):3, (0,1):4} and
    B = 2x1 {(0,0):5, (1,0):6} the product is the 1x1 matrix {(0,0): 39}. *)
Theorem matmul_dot_product (h : heap) (a b : ref) (A B : SparseMatrix) :
  h !! a = Some A -> h !! b = Some B -> valid A -> valid B ->
  ((__matmul__ a b h).1 = Raise DimensionAlignmentMismatch <-> cols A <> rows B) /\
  (cols A = rows B ->
   exists P,
     __matmul__ a b h = (Ok (length h), h ++ [P]) /\
     rows P = rows A /\ cols P = cols B /\
     forall i j, 0 <= i < rows P -> 0 <= j < cols P ->
       get (length h) i j (h ++ [P]) = (Ok (dot A B i j), h ++ [P])) /\
  (forall A' B' i j,
     data A' ≡ₚ data A -> data B' ≡ₚ data B -> cols A' = cols A ->
     dot A' B' i j = dot A B i j) /\
  __matmul__ 0%nat 1%nat [ex_A; ex_B] =
    (Ok 2%nat, [ex_A; ex_B; mkSparseMatrix 1 1 [((0, 0), 39)]]).
Proof.
  intros Ea Eb (NA & BA & ZA) (NB & BB & ZB). split; [|split; [|split]].
  - destruct (decide (cols A = rows B)) as [S|S].
    + rewrite (matmul_run h a b A B) by done. simpl. split; [done|tauto].
    + by rewrite (matmul_mismatch h a b A B).
  - intros S. eexists. rewrite (matmul_run h a b A B) by done.
    split; [done|]. split; [done|]. split; [done|]. simpl.
    intros i j _ _. rewrite get_new_run. do 2 f_equal.
    apply vget_matmul_data; [done..|].
    unfold in_bounds in BA. eapply Forall_impl; [exact BA|]. simpl. tauto.
  - intros A' B' i j PA PB SC. unfold dot, mget. rewrite SC.
    apply Zsum_ext. intros k _.
    rewrite (vget_Permutation (data A) (data A')), (vget_Permutation (data B) (data B'));
      done.
  - vm_compute. reflexivity.
Qed.

Lemma matmul_dot_product_witness :
  get 2%nat 0 0 [ex_A; ex_B; mkSparseMatrix 1 1 [((0, 0), 39)]] =
  (Ok (dot ex_A ex_B 0 0), [ex_A; ex_B; mkSparseMatrix 1 1 [((0, 0), 39)]]).
Proof.
  destruct (matmul_dot_product [ex_A; ex_B] 0%nat 1%nat ex_A ex_B)
    as (_ & H & _ & E); [reflexivity|reflexivity|compute_done|compute_done|].
  destruct (H eq_refl) as (P & EP & _ & _ & G).
  rewrite E in EP. injection EP as <-. apply (G 0 0); simpl; lia.
Defined.





(** C4. On valid matrices A (at [a]) and B (at [b]): [A + B] and [A - B]
    fail with DimensionMismatch exactly when A and B differ in rows or cols,
    and then the heap is as before (no partial result); otherwise each
    returns a new matrix of the same shape whose [get(r, c)] is
    [A.get(r,c) + B.get(r,c)] (respectively [-]) at every in-bounds
    coordinate, and a coordinate whose result is zero is not stored. *)
Theorem add_sub_elementwise (h : heap) (a b : ref) (A B : SparseMatrix) :
  h !! a = Some A -> h !! b = Some B -> valid A -> valid B ->
  elementwise __add__ Z.add h a b A B /\ elementwise __sub__ Z.sub h a b A B.
Proof.
  intros Ea Eb (NA & BA & ZA) (NB & BB & ZB). split.
  - apply elementwise_holds.
    + intros k. by apply vget_add_data.
    + intros S. by apply add_run.
    + intros S. by apply (add_mismatch h a b A B).
  - apply elementwise_holds.
    + intros k. by apply vget_sub_data.
    + intros S. by apply sub_run.
    + intros S. by apply (sub_mismatch h a b A B).
Qed.

Lemma add_sub_elementwise_witness :
  valid ex_P /\ valid ex_Q /\
  __add__ 0%nat 1%nat [ex_P; ex_Q] =
    (Ok 2%nat, [ex_P; ex_Q; mkSparseMatrix 2 2 [((1, 1), 3)]]) /\
  elementwise __sub__ Z.sub [ex_P; ex_Q] 0%nat 1%nat ex_P ex_Q.
Proof.
  split; [compute_done|]. split; [compute_done|]. split; [by vm_compute|].
  apply (add_sub_elementwise [ex_P; ex_Q] 0%nat 1%nat ex_P ex_Q);
    [reflexivity|reflexivity|compute_done|compute_done].
Defined.

(** C5, as the code has it.  [get(r, c)] makes no bounds check and never
    fails: for every coordinate, in or out of bounds, it returns the stored
    value, or 0 when no entry is stored at (r, c); on a matrix that satisfies
    the bounds invariant it returns 0 at every out-of-bounds coordinate. *)
Theorem get_never_fails (h : heap) (o : ref) (m : SparseMatrix) (r c : Z) :
  h !! o = Some m ->
  get o r c h =
    (Ok (match Py.dict_get (data m) (r, c) with Some v => v | None => 0 end), h) /\
  (in_bounds m -> ~ (0 <= r < rows m /\ 0 <= c < cols m) -> get o r c h = (Ok 0, h)).
Proof.
  intros E. rewrite (get_run _ _ _ _ _ E). unfold vget. split.
  - by destruct (Py.dict_get (data m) (r, c)).
  - intros Hb Hout. destruct (Py.dict_get (data m) (r, c)) as [v|] eqn:G; [|done].
    apply dict_get_Some_elem in G. unfold in_bounds in Hb.
    rewrite Forall_forall in Hb. apply Hb in G. simpl in G. tauto.
Qed.

Lemma get_never_fails_witness :
  get 0%nat 0 1 [ex_A] = (Ok 4, [ex_A]) /\ get 0%nat 7 (-1) [ex_A] = (Ok 0, [ex_A]).
Proof.
  split.
  - apply (get_never_fails [ex_A] 0%nat ex_A 0 1). reflexivity.
  - apply (get_never_fails [ex_A] 0%nat ex_A 7 (-1)); [reflexivity|compute_done|].
    simpl. lia.
Defined.

(** C5 as stated fails: on a 1x1 matrix, [get(5, 5)] is out of bounds and
    returns 0 instead of failing with IndexOutOfBounds. *)
Lemma get_out_of_bounds_returns_zero :
  in_range (mkSparseMatrix 1 1 []) 5 5 = false /\
  get 0%nat 5 5 [mkSparseMatrix 1 1 []] = (Ok 0, [mkSparseMatrix 1 1 []]).
Proof. split; reflexivity. Qed.




(** A header line with a second [=] is read up to that [=]: what follows it
    is ignored.  The contract above leaves these lines out. *)
Example header_second_equals :
  load_from (Text ("rows=3=x" +:+ nl +:+ "cols=2")) [] = (Ok 0%nat, [mkSparseMatrix 3 2 []]).
Proof. by vm_compute. Qed.

(** C7, as the code has it.  Once the header is accepted, a body line whose
    triple (r, c, v) has r outside [0, rows) or c outside [0, cols) makes the
    whole load fail while parsing, no matrix being returned and no existing
    matrix being changed; the failure is the [ValueError] "Invalid file
    format" that a malformed body line raises too, not one of its own. *)
Theorem entry_outside_rejected (txt : string) (h : heap) (l0 l1 : string)
    (body : list string) (R C : Z) (entry : string) :
  surviving_lines txt = l0 :: l1 :: body ->
  Py.startswith l0 "rows=" = true -> Py.startswith l1 "cols=" = true ->
  header_int l0 = Some R -> header_int l1 = Some C ->
  entry ∈ body ->
  parse_triple entry = None \/
  (exists r c v, parse_triple entry = Some (r, c, v) /\ ~ (0 <= r < R /\ 0 <= c < C)) ->
  (load_from (Text txt) h).1 = Raise (ValueError "Invalid file format") /\
  (forall o m, h !! o = Some m -> (load_from (Text txt) h).2 !! o = Some m).
Proof.
  intros E S0 S1 H0 H1 Hin Hbad.
  rewrite (load_from_run h txt l0 l1 body R C) by done. simpl.
  split; [|intros o m; apply lookup_old_object].
  assert (entry_ok R C entry = false) as Hno.
  { unfold entry_ok, entry_triple. destruct (_ && _); [|done].
    destruct Hbad as [->|(r & c & v & -> & Hout)]; [done|].
    destruct ((0 <=? r) && (r <? R) && ((0 <=? c) && (c <? C))) eqn:T; [|done].
    destruct Hout. lia. }
  destruct (forallb (entry_ok R C) body) eqn:F; [|done].
  rewrite forallb_forall in F. apply list_elem_of_In, F in Hin. congruence.
Qed.

Lemma entry_outside_rejected_witness :
  (load_from (Text ex_entry_outside) []).1 = Raise (ValueError "Invalid file format") /\
  (load_from (Text ex_entry_short) []).1 = Raise (ValueError "Invalid file format").
Proof.
  split.
  - apply (entry_outside_rejected ex_entry_outside [] "rows=3" "cols=3"
             ["(5, 0, 1)"] 3 3 "(5, 0, 1)");
      [reflexivity|reflexivity|reflexivity|reflexivity|reflexivity|left|].
    right. exists 5, 0, 1. split; [reflexivity|lia].
  - apply (entry_outside_rejected ex_entry_short [] "rows=3" "cols=3"
             ["(1,2)"] 3 3 "(1,2)");
      [reflexivity|reflexivity|reflexivity|reflexivity|reflexivity|left|].
    left. reflexivity.
Defined.

(** C7 as stated fails: the file with the out-of-bounds line [(5, 0, 1)]
    and the file with the malformed line [(1,2)] fail with one and the same
    exception; the two failures are not of distinct kinds. *)
Lemma entry_outside_same_failure :
  (load_from (Text ex_entry_outside) []).1 = Raise MalformedEntry /\
  (load_from (Text ex_entry_outside) []).1 = (load_from (Text ex_entry_short) []).1.
Proof. split; by vm_compute. Qed.

(** C8. For valid matrices A and B of equal shape, [(A + B) - B] and
    [(A - B) + B] have the dimensions of A and exactly its stored entries. *)
Theorem add_sub_cancel (h : heap) (a b : ref) (A B : SparseMatrix) :
  h !! a = Some A -> h !! b = Some B -> valid A -> valid B -> same_shape A B ->
  (exists X D,
     __add__ a b h = (Ok (length h), h ++ [X]) /\
     __sub__ (length h) b (h ++ [X]) = (Ok (S (length h)), h ++ [X; D]) /\
     rows D = rows A /\ cols D = cols A /\ data D ≡ₚ data A) /\
  (exists X D,
     __sub__ a b h = (Ok (length h), h ++ [X]) /\
     __add__ (length h) b (h ++ [X]) = (Ok (S (length h)), h ++ [X; D]) /\
     rows D = rows A /\ cols D = cols A /\ data D ≡ₚ data A).
Proof.
  intros Ea Eb (NA & BA & ZA) (NB & BB & ZB) SH.
  assert (forall op, in_bounds
    (mkSparseMatrix (rows A) (cols A) (accum op (copy_into [] (data A)) (data B))))
    as BS by (intros op; by apply valid_add_sub).
  assert (forall op, unique_keys
    (mkSparseMatrix (rows A) (cols A) (accum op (copy_into [] (data A)) (data B))))
    as NS by (intros op; by apply valid_add_sub).
  split.
  - eexists _, _. split; [by apply add_run|]. unfold add_data at 1.
    rewrite (sub_run (h ++ [_]) (length h) b _ B
               (lookup_new_object h _) (lookup_old_object h _ b B Eb) (BS Z.add) BB SH).
    rewrite length_app, Nat.add_1_r, <- (assoc_L (++)). simpl.
    split; [done|]. split; [done|]. split; [done|].
    apply vget_ext_Permutation; [..|done| ].
    + apply accum_NoDup, copy_into_NoDup, NoDup_nil_2.
    + done.
    + apply accum_nonzero, copy_into_nonzero, Forall_nil_2.
    + intros k.
      pose proof (vget_sub_data (mkSparseMatrix (rows A) (cols A) _) B k
                    (NS Z.add) NB) as E.
      simpl in *. rewrite E.
      change (accum Z.add (copy_into [] (data A)) (data B))
        with (add_data (data A) (data B)).
      rewrite vget_add_data by done. lia.
  - eexists _, _. split; [by apply sub_run|]. unfold sub_data at 1.
    rewrite (add_run (h ++ [_]) (length h) b _ B
               (lookup_new_object h _) (lookup_old_object h _ b B Eb) (BS Z.sub) BB SH).
    rewrite length_app, Nat.add_1_r, <- (assoc_L (++)). simpl.
    split; [done|]. split; [done|]. split; [done|].
    apply vget_ext_Permutation; [..|done| ].
    + apply accum_NoDup, copy_into_NoDup, NoDup_nil_2.
    + done.
    + apply accum_nonzero, copy_into_nonzero, Forall_nil_2.
    + intros k.
      pose proof (vget_add_data (mkSparseMatrix (rows A) (cols A) _) B k
                    (NS Z.sub) NB) as E.
      simpl in *. rewrite E.
      change (accum Z.sub (copy_into [] (data A)) (data B))
        with (sub_data (data A) (data B)).
      rewrite vget_sub_data by done. lia.
Qed.

Lemma add_sub_cancel_witness :
  valid ex_P /\ valid ex_Q /\ same_shape ex_P ex_Q /\
  exists X D,
    __add__ 0%nat 1%nat [ex_P; ex_Q] = (Ok 2%nat, [ex_P; ex_Q; X]) /\
    __sub__ 2%nat 1%nat [ex_P; ex_Q; X] = (Ok 3%nat, [ex_P; ex_Q; X; D]) /\
    rows D = 2 /\ cols D = 2 /\ data D ≡ₚ data ex_P.
Proof.
  split; [compute_done|]. split; [compute_done|]. split; [compute_done|].
  apply (add_sub_cancel [ex_P; ex_Q] 0%nat 1%nat ex_P ex_Q);
    [reflexivity|reflexivity|compute_done|compute_done|compute_done].
Defined.

(** C9. Addition, subtraction and multiplication leave both operands (and
    every other existing matrix) unchanged, whether they return or fail;
    the matrix they return is newly allocated and is neither operand. *)
Theorem operands_unchanged :
  keeps_operands __add__ /\ keeps_operands __sub__ /\ keeps_operands __matmul__.
Proof.
  split; [apply (add_sub_keeps Z.add)|].
  split; [apply (add_sub_keeps Z.sub)|apply matmul_keeps].
Qed.

(** C10. When both operands satisfy the bounds invariant, no [set] call made
    by [__add__], [__sub__] or [__matmul__] raises IndexOutOfBounds: the
    only failure of these methods is their dimension check.  [set] raises
    it exactly on an out-of-bounds coordinate, and the coordinates these
    methods pass to [set] (the keys of A and of B for [+] and [-], the keys
    of the products for [@]) are in the bounds of the result. *)
Theorem arithmetic_fails_only_on_dimensions (h : heap) (a b : ref) (A B : SparseMatrix) :
  h !! a = Some A -> h !! b = Some B -> in_bounds A -> in_bounds B ->
  fails_only_with (__add__ a b h) DimensionMismatch (~ same_shape A B) /\
  fails_only_with (__sub__ a b h) DimensionMismatch (~ same_shape A B) /\
  fails_only_with (__matmul__ a b h) DimensionAlignmentMismatch (cols A <> rows B) /\
  (forall o m r c v, h !! o = Some m ->
     ((set o r c v h).1 = Raise IndexOutOfBounds <->
      ~ (0 <= r < rows m /\ 0 <= c < cols m))) /\
  (same_shape A B ->
   Forall (fun e : coord * Z => 0 <= e.1.1 < rows A /\ 0 <= e.1.2 < cols A)
     (data A ++ data B)) /\
  Forall (fun e : coord * Z => 0 <= e.1.1 < rows A /\ 0 <= e.1.2 < cols B)
    (products (data A) (build_other_map (data B))).
Proof.
  intros Ea Eb BA BB. unfold fails_only_with.
  split; [|split; [|split; [|split; [|split]]]].
  - intros e. destruct (decide (same_shape A B)) as [S|S].
    + by rewrite (add_run h a b A B).
    + rewrite (add_mismatch h a b A B) by done. by intros [= <-].
  - intros e. destruct (decide (same_shape A B)) as [S|S].
    + by rewrite (sub_run h a b A B).
    + rewrite (sub_mismatch h a b A B) by done. by intros [= <-].
  - intros e. destruct (decide (cols A = rows B)) as [S|S].
    + by rewrite (matmul_run h a b A B).
    + rewrite (matmul_mismatch h a b A B) by done. by intros [= <-].
  - intros o m r c v E. rewrite (set_run _ _ _ _ _ _ E).
    rewrite <- in_range_true. by destruct (in_range m r c).
  - intros [SR SC]. apply Forall_app. split; [done|].
    unfold in_bounds in BB. by rewrite SR, SC.
  - by apply products_bounds.
Qed.

Lemma arithmetic_fails_only_on_dimensions_witness :
  in_bounds ex_A /\ in_bounds ex_B /\
  fails_only_with (__add__ 0%nat 1%nat [ex_A; ex_B]) DimensionMismatch
    (~ same_shape ex_A ex_B) /\
  __add__ 0%nat 1%nat [ex_A; ex_B] = (Raise DimensionMismatch, [ex_A; ex_B]) /\
  (__matmul__ 0%nat 1%nat [ex_A; ex_B]).1 = Ok 2%nat.
Proof.
  split; [compute_done|]. split; [compute_done|].
  split; [|split; by vm_compute].
  apply (arithmetic_fails_only_on_dimensions [ex_A; ex_B] 0%nat 1%nat ex_A ex_B);
    [reflexivity|reflexivity|compute_done|compute_done].
Defined.

(** * Further properties of the code *)

(** ** [set] and [get] *)

Lemma dict_keys_get {K V} `{EqDecision K} (d : Py.dict K V) k :
  k ∈ Py.dict_keys d <-> Py.dict_get d k <> None.
Proof.
  destruct (Py.dict_get d k) eqn:E.
  - split; [done|]. intros _. destruct (decide (k ∈ Py.dict_keys d)); [done|].
    apply dict_get_None in n. congruence.
  - apply dict_get_None in E. tauto.
Qed.

Lemma store_set_keys_iff d k v k' :
  NoDup (Py.dict_keys d) ->
  k' ∈ Py.dict_keys (store_set d k v) <->
  (k' = k /\ v <> 0) \/ (k' <> k /\ k' ∈ Py.dict_keys d).
Proof.
  intros N. rewrite !dict_keys_get. unfold store_set.
  destruct (Z.eqb_spec v 0) as [->|Hv].
  - rewrite dict_get_pop by done. case_decide; [|tauto].
    split; [done|]. intros [[_ ?]|[? _]]; done.
  - rewrite dict_get_setitem. case_decide; [|tauto].
    split; [tauto|done].
Qed.

(** X1. [set] at a coordinate outside the extents raises
    [IndexError("Invalid matrix index")] whatever the value, and changes
    nothing. *)
Theorem set_out_of_bounds_rejected (h : heap) (o : ref) (m : SparseMatrix) (r c v : Z) :
  h !! o = Some m -> ~ (0 <= r < rows m /\ 0 <= c < cols m) ->
  set o r c v h = (Raise (IndexError "Invalid matrix index"), h).
Proof.
  intros E Hout. rewrite (set_run _ _ _ _ _ _ E).
  destruct (in_range m r c) eqn:T; [|done]. by apply in_range_true in T.
Qed.

Lemma set_out_of_bounds_rejected_witness :
  set 0%nat 1 0 9 [ex_A] = (Raise (IndexError "Invalid matrix index"), [ex_A]) /\
  set 0%nat 0 (-1) 0 [ex_A] = (Raise (IndexError "Invalid matrix index"), [ex_A]).
Proof.
  split.
  - apply (set_out_of_bounds_rejected [ex_A] 0%nat ex_A 1 0 9); [reflexivity|].
    simpl. lia.
  - apply (set_out_of_bounds_rejected [ex_A] 0%nat ex_A 0 (-1) 0); [reflexivity|].
    simpl. lia.
Defined.

(** X2. After an in-bounds [set(r, c, v)] (zero or not, key present or
    not), [get(r, c)] returns [v], [get] at every other coordinate returns
    what it returned before, the extents are the same and no other object
    has changed. *)
Theorem set_then_get (h : heap) (o : ref) (m : SparseMatrix) (r c v : Z) :
  h !! o = Some m -> unique_keys m -> 0 <= r < rows m -> 0 <= c < cols m ->
  exists m',
    set o r c v h = (Ok tt, <[o := m']> h) /\
    rows m' = rows m /\ cols m' = cols m /\
    (forall r' c', get o r' c' (<[o := m']> h) =
       (Ok (if decide ((r', c') = (r, c)) then v else mget m r' c'), <[o := m']> h)) /\
    (forall o', o' <> o -> (<[o := m']> h) !! o' = h !! o').
Proof.
  intros E N Hr Hc.
  exists (mkSparseMatrix (rows m) (cols m) (store_set (data m) (r, c) v)).
  rewrite (set_run _ _ _ _ _ _ E), (proj2 (in_range_true m r c)) by done.
  split; [done|]. split; [done|]. split; [done|]. split.
  - intros r' c'.
    assert (<[o := mkSparseMatrix (rows m) (cols m) (store_set (data m) (r, c) v)]> h
              !! o = Some (mkSparseMatrix (rows m) (cols m) (store_set (data m) (r, c) v)))
      as E' by (apply list_lookup_insert_eq; by eapply lookup_lt_Some).
    rewrite (get_run _ _ _ _ _ E'). simpl. by rewrite vget_store_set.
  - intros o' Ho. by apply list_lookup_insert_ne.
Qed.

Lemma set_then_get_witness :
  exists m',
    set 0%nat 0 1 0 [ex_A] = (Ok tt, [m']) /\
    get 0%nat 0 1 [m'] = (Ok 0, [m']) /\ get 0%nat 0 0 [m'] = (Ok 3, [m']).
Proof.
  destruct (set_then_get [ex_A] 0%nat ex_A 0 1 0) as (m' & E & _ & _ & G & _);
    [reflexivity|compute_done|simpl; lia|simpl; lia|].
  exists m'. split; [exact E|]. split; [apply (G 0 1)|apply (G 0 0)].
Defined.

(** X3. An in-bounds [set(r, c, v)] makes (r, c) a stored key exactly when
    [v] is not 0, keeps every other stored key, adds no other key, and keeps
    the keys unique. *)
Theorem set_stored_keys (h : heap) (o : ref) (m : SparseMatrix) (r c v : Z) :
  h !! o = Some m -> unique_keys m -> 0 <= r < rows m -> 0 <= c < cols m ->
  exists m',
    set o r c v h = (Ok tt, <[o := m']> h) /\
    unique_keys m' /\
    forall k, k ∈ Py.dict_keys (data m') <->
              (k = (r, c) /\ v <> 0) \/ (k <> (r, c) /\ k ∈ Py.dict_keys (data m)).
Proof.
  intros E N Hr Hc.
  exists (mkSparseMatrix (rows m) (cols m) (store_set (data m) (r, c) v)).
  rewrite (set_run _ _ _ _ _ _ E), (proj2 (in_range_true m r c)) by done.
  split; [done|]. split; [by apply store_set_NoDup|].
  intros k. by apply store_set_keys_iff.
Qed.

Lemma set_stored_keys_witness :
  exists m',
    set 0%nat 0 1 0 [ex_A] = (Ok tt, [m']) /\
    ((0, 1) ∉ Py.dict_keys (data m')) /\ ((0, 0) ∈ Py.dict_keys (data m')).
Proof.
  destruct (set_stored_keys [ex_A] 0%nat ex_A 0 1 0) as (m' & E & _ & K);
    [reflexivity|compute_done|simpl; lia|simpl; lia|].
  exists m'. split; [exact E|]. split.
  - rewrite K. intros [[_ ?]|[? _]]; done.
  - apply K. right. split; [done|]. compute_done.
Defined.

(** X4. In every heap reachable by calls of the class, every matrix has
    unique keys and every stored coordinate (r, c) has [0 <= r < rows] and
    [0 <= c < cols]. *)
Theorem reachable_in_bounds (h : heap) (o : ref) (m : SparseMatrix) :
  reachable h -> h !! o = Some m -> unique_keys m /\ in_bounds m.
Proof.
  intros Hr E. apply reachable_valid in Hr.
  destruct (Forall_lookup_1 _ _ _ _ Hr E) as (N & B & _). by split.
Qed.

Lemma reachable_in_bounds_witness :
  in_bounds (mkSparseMatrix 1 1 [((0, 0), 5)]).
Proof.
  apply (reachable_in_bounds ex_heap 0%nat (mkSparseMatrix 1 1 [((0, 0), 5)])).
  - do 2 apply reachable_call. apply reachable_empty.
  - reflexivity.
Defined.

(** ** Algebra of the arithmetic methods *)

Lemma accum_add_fresh d es :
  NoDup (Py.dict_keys (d ++ es)) ->
  Forall (fun e : coord * Z => e.2 <> 0) es ->
  accum Z.add d es = d ++ es.
Proof.
  revert d. induction es as [|[k v] es IH]; intros d N Hz; simpl.
  - by rewrite app_nil_r.
  - apply Forall_cons in Hz as [Hv Hz]. simpl in Hv.
    assert (k ∉ Py.dict_keys d) as Hk.
    { unfold Py.dict_keys in *. rewrite fmap_app, fmap_cons in N.
      apply NoDup_app in N as (_ & N & _). intros Hin.
      apply (N k Hin). left. }
    assert (vget d k = 0) as ->.
    { unfold vget. apply dict_get_None in Hk. by rewrite Hk. }
    unfold store_set. rewrite Z.add_0_l, (proj2 (Z.eqb_neq v 0)) by done.
    rewrite dict_setitem_new by done. rewrite IH; [|by rewrite <- (assoc_L (++))|done].
    by rewrite <- (assoc_L (++)).
Qed.

Lemma all_zero_empty d :
  Forall (fun e : coord * Z => e.2 <> 0) d -> (forall k, vget d k = 0) -> d = [].
Proof.
  destruct d as [|[k v] d]; [done|]. intros [Hv _]%Forall_cons Hz.
  specialize (Hz k). unfold vget in Hz. simpl in Hz, Hv.
  rewrite decide_True in Hz by done. simpl in Hz. done.
Qed.

Lemma vget_outside m r c :
  in_bounds m -> ~ (0 <= r < rows m /\ 0 <= c < cols m) -> mget m r c = 0.
Proof.
  intros B Hout. unfold mget, vget.
  destruct (Py.dict_get (data m) (r, c)) as [v|] eqn:G; [|done].
  apply dict_get_Some_elem in G. unfold in_bounds in B.
  rewrite Forall_forall in B. apply B in G. simpl in G. tauto.
Qed.

(** X5. For valid matrices A and B of equal shape, [A + B] and [B + A]
    both succeed and return matrices with the same extents and the same
    stored entries. *)
Theorem add_commutes (h : heap) (a b : ref) (A B : SparseMatrix) :
  h !! a = Some A -> h !! b = Some B -> valid A -> valid B -> same_shape A B ->
  exists X Y,
    __add__ a b h = (Ok (length h), h ++ [X]) /\
    __add__ b a h = (Ok (length h), h ++ [Y]) /\
    rows X = rows Y /\ cols X = cols Y /\ data X ≡ₚ data Y.
Proof.
  intros Ea Eb (NA & BA & ZA) (NB & BB & ZB) [SR SC].
  eexists _, _. split; [by apply add_run|].
  split; [by apply add_run|]. simpl. split; [done|]. split; [done|].
  apply vget_ext_Permutation.
  - apply accum_NoDup, copy_into_NoDup, NoDup_nil_2.
  - apply accum_NoDup, copy_into_NoDup, NoDup_nil_2.
  - apply accum_nonzero, copy_into_nonzero, Forall_nil_2.
  - apply accum_nonzero, copy_into_nonzero, Forall_nil_2.
  - intros k. rewrite !vget_add_data by done. lia.
Qed.

Lemma add_commutes_witness :
  exists X Y,
    __add__ 0%nat 1%nat [ex_P; ex_Q] = (Ok 2%nat, [ex_P; ex_Q; X]) /\
    __add__ 1%nat 0%nat [ex_P; ex_Q] = (Ok 2%nat, [ex_P; ex_Q; Y]) /\
    rows X = rows Y /\ cols X = cols Y /\ data X ≡ₚ data Y.
Proof.
  apply (add_commutes [ex_P; ex_Q] 0%nat 1%nat ex_P ex_Q);
    [reflexivity|reflexivity|compute_done|compute_done|compute_done].
Defined.

(** X6. [A - A], with the same object as both operands, returns a new
    matrix of A's shape that stores nothing. *)
Theorem sub_self_is_empty (h : heap) (a : ref) (A : SparseMatrix) :
  h !! a = Some A -> unique_keys A -> in_bounds A ->
  __sub__ a a h = (Ok (length h), h ++ [mkSparseMatrix (rows A) (cols A) []]).
Proof.
  intros Ea NA BA. rewrite (sub_run h a a A A) by done.
  assert (sub_data (data A) (data A) = []) as ->; [|done].
  apply all_zero_empty.
  - apply accum_nonzero, copy_into_nonzero, Forall_nil_2.
  - intros k. rewrite vget_sub_data by done. lia.
Qed.

Lemma sub_self_is_empty_witness :
  __sub__ 0%nat 0%nat [ex_A] = (Ok 1%nat, [ex_A; mkSparseMatrix 1 2 []]).
Proof.
  apply (sub_self_is_empty [ex_A] 0%nat ex_A); [reflexivity|compute_done|compute_done].
Defined.

(** X7. Adding a matrix that stores nothing, on either side, returns a new
    matrix with exactly the stored entries of the other operand, in the same
    order; so does subtracting it. *)
Theorem add_empty_is_copy (h : heap) (a z : ref) (A Z0 : SparseMatrix) :
  h !! a = Some A -> h !! z = Some Z0 -> valid A -> data Z0 = [] -> same_shape A Z0 ->
  __add__ a z h = (Ok (length h), h ++ [mkSparseMatrix (rows A) (cols A) (data A)]) /\
  __add__ z a h = (Ok (length h), h ++ [mkSparseMatrix (rows A) (cols A) (data A)]) /\
  __sub__ a z h = (Ok (length h), h ++ [mkSparseMatrix (rows A) (cols A) (data A)]).
Proof.
  intros Ea Ez (NA & BA & ZA) Hz [SR SC].
  assert (in_bounds Z0) as BZ by (unfold in_bounds; rewrite Hz; apply Forall_nil_2).
  split; [|split].
  - rewrite (add_run h a z A Z0) by done. unfold add_data. rewrite Hz. simpl.
    by rewrite copy_into_fresh.
  - rewrite (add_run h z a Z0 A) by done. unfold add_data. rewrite Hz. simpl.
    rewrite accum_add_fresh by done. by rewrite <- SR, <- SC.
  - rewrite (sub_run h a z A Z0) by done. unfold sub_data. rewrite Hz. simpl.
    by rewrite copy_into_fresh.
Qed.

Lemma add_empty_is_copy_witness :
  __add__ 1%nat 0%nat [ex_P; ex_Z] = (Ok 2%nat, [ex_P; ex_Z; ex_P]).
Proof.
  apply (add_empty_is_copy [ex_P; ex_Z] 0%nat 1%nat ex_P ex_Z);
    [reflexivity|reflexivity|compute_done|reflexivity|compute_done].
Defined.

Lemma products_nil_r dA : products dA [] = [].
Proof. unfold products. induction dA as [|e dA IH]; simpl; [done|]. by rewrite IH. Qed.

(** X8. Multiplying by a matrix that stores nothing, on either side,
    returns a new matrix of the product's shape that stores nothing. *)
Theorem matmul_empty_is_empty (h : heap) (a z : ref) (A Z0 : SparseMatrix) :
  h !! a = Some A -> h !! z = Some Z0 -> in_bounds A -> data Z0 = [] ->
  (cols A = rows Z0 ->
   __matmul__ a z h = (Ok (length h), h ++ [mkSparseMatrix (rows A) (cols Z0) []])) /\
  (cols Z0 = rows A ->
   __matmul__ z a h = (Ok (length h), h ++ [mkSparseMatrix (rows Z0) (cols A) []])).
Proof.
  intros Ea Ez BA Hz.
  assert (in_bounds Z0) as BZ by (unfold in_bounds; rewrite Hz; apply Forall_nil_2).
  split; intros S.
  - rewrite (matmul_run h a z A Z0) by done. unfold matmul_data. rewrite Hz.
    by rewrite products_nil_r.
  - rewrite (matmul_run h z a Z0 A) by done. unfold matmul_data. by rewrite Hz.
Qed.

Lemma matmul_empty_is_empty_witness :
  __matmul__ 0%nat 1%nat [ex_P; ex_Z] = (Ok 2%nat, [ex_P; ex_Z; ex_Z]).
Proof.
  apply (matmul_empty_is_empty [ex_P; ex_Z] 0%nat 1%nat ex_P ex_Z);
    [reflexivity|reflexivity|compute_done|reflexivity|reflexivity].
Defined.

Lemma dot_identity_r A I i j :
  in_bounds A -> is_identity (cols A) I -> dot A I i j = mget A i j.
Proof.
  intros BA (_ & _ & _ & HI). unfold dot.
  destruct (decide (0 <= j < cols A)) as [Hj|Hj].
  - rewrite (Zsum_ext _ (fun k => if decide (k = j) then mget A i k else 0)).
    + rewrite (Zsum_point _ (fun _ => 0)); [|apply NoDup_seqZ|apply elem_of_seqZ; lia].
      assert (forall l : list Z, Zsum ((fun _ => 0) <$> l) = 0) as ->
        by (induction l as [|? ? IH]; csimpl; [done|by rewrite IH]).
      lia.
    + intros k _. rewrite HI. destruct (decide (k = j)) as [->|Hk].
      * rewrite decide_True by done. lia.
      * rewrite decide_False by tauto. lia.
  - rewrite (vget_outside A i j) by tauto.
    rewrite (Zsum_ext _ (fun _ => 0)).
    + induction (seqZ 0 (cols A)) as [|? ? IH]; csimpl; [done|by rewrite IH].
    + intros k Hk%elem_of_seqZ. rewrite HI, decide_False by lia. lia.
Qed.

Lemma dot_identity_l A I i j :
  in_bounds A -> is_identity (rows A) I -> dot I A i j = mget A i j.
Proof.
  intros BA (_ & HC & _ & HI). unfold dot. rewrite HC.
  destruct (decide (0 <= i < rows A)) as [Hi|Hi].
  - rewrite (Zsum_ext _ (fun k => if decide (k = i) then mget A k j else 0)).
    + rewrite (Zsum_point _ (fun _ => 0)); [|apply NoDup_seqZ|apply elem_of_seqZ; lia].
      assert (forall l : list Z, Zsum ((fun _ => 0) <$> l) = 0) as ->
        by (induction l as [|? ? IH]; csimpl; [done|by rewrite IH]).
      lia.
    + intros k _. rewrite HI. destruct (decide (k = i)) as [->|Hk].
      * rewrite decide_True by done. lia.
      * rewrite decide_False by (intros [-> _]; done). lia.
  - rewrite (vget_outside A i j) by tauto.
    rewrite (Zsum_ext _ (fun _ => 0)).
    + induction (seqZ 0 (rows A)) as [|? ? IH]; csimpl; [done|by rewrite IH].
    + intros k Hk%elem_of_seqZ. rewrite HI, decide_False by lia. lia.
Qed.

(** X9. Multiplying a valid matrix A by an identity matrix of matching
    size, on the right or on the left, returns a new matrix with the extents
    and exactly the stored entries of A. *)
Theorem matmul_identity (h : heap) (a i : ref) (A I : SparseMatrix) :
  h !! a = Some A -> h !! i = Some I -> valid A ->
  (is_identity (cols A) I ->
   exists X, __matmul__ a i h = (Ok (length h), h ++ [X]) /\
             rows X = rows A /\ cols X = cols A /\ data X ≡ₚ data A) /\
  (is_identity (rows A) I ->
   exists X, __matmul__ i a h = (Ok (length h), h ++ [X]) /\
             rows X = rows A /\ cols X = cols A /\ data X ≡ₚ data A).
Proof.
  intros Ea Ei (NA & BA & ZA). split; intros HI;
    pose proof HI as (HR & HC & (NI & BI & ZI) & _).
  - eexists. rewrite (matmul_run h a i A I) by (done || by rewrite HR).
    split; [done|]. split; [done|]. split; [done|]. simpl.
    apply vget_ext_Permutation; [apply accum_NoDup, NoDup_nil_2|done
                                |apply accum_nonzero, Forall_nil_2|done|].
    intros [r c]. rewrite vget_matmul_data; [by apply dot_identity_r|done..|].
    unfold in_bounds in BA. eapply Forall_impl; [exact BA|]. simpl. tauto.
  - eexists. rewrite (matmul_run h i a I A) by (done || by rewrite HC).
    split; [done|]. split; [done|]. split; [done|]. simpl.
    apply vget_ext_Permutation; [apply accum_NoDup, NoDup_nil_2|done
                                |apply accum_nonzero, Forall_nil_2|done|].
    intros [r c]. rewrite vget_matmul_data; [by apply dot_identity_l|done..|].
    unfold in_bounds in BI. eapply Forall_impl; [exact BI|]. simpl. tauto.
Qed.

Lemma ex_I_identity : is_identity 2 ex_I.
Proof.
  split; [done|]. split; [done|]. split; [compute_done|].
  intros k j. unfold mget, vget. simpl.
  repeat case_decide; simplify_eq; simpl; try done; try lia.
  destruct H1 as [-> ?]. assert (j = 0 \/ j = 1) as [->| ->] by lia; done.
Qed.

Lemma matmul_identity_witness :
  exists X, __matmul__ 0%nat 1%nat [ex_P; ex_I] = (Ok 2%nat, [ex_P; ex_I; X]) /\
            rows X = 2 /\ cols X = 2 /\ data X ≡ₚ data ex_P.
Proof.
  destruct (matmul_identity [ex_P; ex_I] 0%nat 1%nat ex_P ex_I) as [H _];
    [reflexivity|reflexivity|compute_done|].
  apply H. apply ex_I_identity.
Defined.

Lemma Zsum_plus (f g : Z -> Z) (l : list Z) :
  Zsum ((fun k => f k + g k) <$> l) = Zsum (f <$> l) + Zsum (g <$> l).
Proof. induction l as [|x l IH]; csimpl; [done|]. rewrite IH. lia. Qed.

Lemma dot_plus_r A B C X i j :
  (forall k, mget X k j = mget B k j + mget C k j) ->
  dot A X i j = dot A B i j + dot A C i j.
Proof.
  intros HX. unfold dot. rewrite <- Zsum_plus. apply Zsum_ext.
  intros k _. rewrite HX. lia.
Qed.

(** X10. Multiplication distributes over addition: for valid A, B, C with
    B and C of equal shape and [A.cols == B.rows], the matrices returned by
    [A @ (B + C)] and by [(A @ B) + (A @ C)] have the same extents and the
    same stored entries. *)
Theorem matmul_distributes_over_add (h : heap) (a b c : ref) (A B C : SparseMatrix) :
  h !! a = Some A -> h !! b = Some B -> h !! c = Some C ->
  valid A -> valid B -> valid C -> same_shape B C -> cols A = rows B ->
  exists X L P Q R,
    __add__ b c h = (Ok (length h), h ++ [X]) /\
    __matmul__ a (length h) (h ++ [X]) = (Ok (S (length h)), h ++ [X; L]) /\
    __matmul__ a b h = (Ok (length h), h ++ [P]) /\
    __matmul__ a c (h ++ [P]) = (Ok (S (length h)), h ++ [P; Q]) /\
    __add__ (length h) (S (length h)) (h ++ [P; Q]) =
      (Ok (S (S (length h))), h ++ [P; Q; R]) /\
    rows L = rows R /\ cols L = cols R /\ data L ≡ₚ data R.
Proof.
  intros Ea Eb Ec (NA & BA & ZA) (NB & BB & ZB) (NC & BC & ZC) [SR SC] AL.
  set (X := mkSparseMatrix (rows B) (cols B) (add_data (data B) (data C))).
  set (P := mkSparseMatrix (rows A) (cols B) (matmul_data (data A) (data B))).
  set (Q := mkSparseMatrix (rows A) (cols C) (matmul_data (data A) (data C))).
  assert (valid X) as (NX & BX & ZX) by (by apply valid_add_sub).
  assert (valid P) as (NP & BP & ZP) by (by apply valid_matmul).
  assert (valid Q) as (NQ & BQ & ZQ) by (by apply valid_matmul).
  exists X, (mkSparseMatrix (rows A) (cols X) (matmul_data (data A) (data X))), P, Q,
    (mkSparseMatrix (rows P) (cols P) (add_data (data P) (data Q))).
  split; [by apply add_run|].
  split.
  { rewrite (matmul_run (h ++ [X]) a (length h) A X
               (lookup_old_object h X a A Ea) (lookup_new_object h X) BA BX AL).
    by rewrite length_app, Nat.add_1_r, <- (assoc_L (++)). }
  split; [by apply matmul_run|].
  split.
  { rewrite (matmul_run (h ++ [P]) a c A C
               (lookup_old_object h P a A Ea) (lookup_old_object h P c C Ec) BA BC)
      by (by rewrite AL).
    by rewrite length_app, Nat.add_1_r, <- (assoc_L (++)). }
  split.
  { change (h ++ [P; Q]) with (h ++ [P] ++ [Q]). rewrite (assoc_L (++)).
    assert (((h ++ [P]) ++ [Q]) !! length h = Some P) as EP
      by (apply lookup_old_object, lookup_new_object).
    assert (((h ++ [P]) ++ [Q]) !! S (length h) = Some Q) as EQ.
    { replace (S (length h)) with (length (h ++ [P]))
        by (rewrite length_app; simpl; lia).
      apply lookup_new_object. }
    rewrite (add_run _ _ _ P Q EP EQ BP BQ) by (split; simpl; [done|by rewrite SC]).
    rewrite !length_app. simpl. rewrite <- !(assoc_L (++)). simpl.
    by replace (length h + 1 + 1)%nat with (S (S (length h))) by lia. }
  split; [done|]. split; [done|].
  change (matmul_data (data A) (data X) ≡ₚ add_data (data P) (data Q)).
  apply vget_ext_Permutation.
  - apply accum_NoDup, NoDup_nil_2.
  - apply accum_NoDup, copy_into_NoDup, NoDup_nil_2.
  - apply accum_nonzero, Forall_nil_2.
  - apply accum_nonzero, copy_into_nonzero, Forall_nil_2.
  - intros [i j].
    assert (Forall (fun e : coord * Z => 0 <= e.1.2 < cols A) (data A)) as CA.
    { unfold in_bounds in BA. eapply Forall_impl; [exact BA|]. simpl. tauto. }
    rewrite (vget_matmul_data A X i j NA NX CA).
    rewrite (vget_add_data P Q (i, j) NP NQ).
    change (data P) with (matmul_data (data A) (data B)).
    change (data Q) with (matmul_data (data A) (data C)).
    rewrite (vget_matmul_data A B i j NA NB CA), (vget_matmul_data A C i j NA NC CA).
    apply dot_plus_r. intros k. unfold mget.
    change (data X) with (add_data (data B) (data C)).
    by rewrite (vget_add_data B C (k, j) NB NC).
Qed.

Lemma matmul_distributes_over_add_witness :
  exists X L P Q R,
    __add__ 1%nat 2%nat [ex_P; ex_Q; ex_I] = (Ok 3%nat, [ex_P; ex_Q; ex_I; X]) /\
    __matmul__ 0%nat 3%nat [ex_P; ex_Q; ex_I; X] = (Ok 4%nat, [ex_P; ex_Q; ex_I; X; L]) /\
    __matmul__ 0%nat 1%nat [ex_P; ex_Q; ex_I] = (Ok 3%nat, [ex_P; ex_Q; ex_I; P]) /\
    __matmul__ 0%nat 2%nat [ex_P; ex_Q; ex_I; P] = (Ok 4%nat, [ex_P; ex_Q; ex_I; P; Q]) /\
    __add__ 3%nat 4%nat [ex_P; ex_Q; ex_I; P; Q] =
      (Ok 5%nat, [ex_P; ex_Q; ex_I; P; Q; R]) /\
    rows L = rows R /\ cols L = cols R /\ data L ≡ₚ data R.
Proof.
  apply (matmul_distributes_over_add [ex_P; ex_Q; ex_I] 0%nat 1%nat 2%nat ex_P ex_Q ex_I);
    [reflexivity|reflexivity|reflexivity|compute_done|compute_done|compute_done
    |compute_done|reflexivity].
Defined.

(** ** The row index of [__matmul__] *)

Lemma row_of_filter (d : list (coord * Z)) k :
  row_of d k =
  (fun e : coord * Z => (e.1.2, e.2)) <$> filter (fun e : coord * Z => e.1.1 = k) d.
Proof.
  induction d as [|e d IH]; [done|]. rewrite filter_cons. cbn [row_of].
  case_decide; [rewrite fmap_cons|]; by rewrite IH.
Qed.

Lemma build_other_map_NoDup d : NoDup (Py.dict_keys (build_other_map d)).
Proof.
  unfold build_other_map. induction d as [|[[r c] v] d IH] using rev_ind.
  - apply NoDup_nil_2.
  - rewrite foldl_snoc. by apply dict_setitem_NoDup.
Qed.

(** X11. The index [other_map] built by [__matmul__] groups the entries of
    the right operand by row: looking up row [k] gives the (col, value)
    pairs of the entries of row [k], in iteration order; a row without
    entries is not a key; and no row is a key twice. *)
Theorem other_map_groups_rows (d : list (coord * Z)) (k : Z) :
  default [] (Py.dict_get (build_other_map d) k) =
    (fun e : coord * Z => (e.1.2, e.2)) <$> filter (fun e : coord * Z => e.1.1 = k) d /\
  (Py.dict_get (build_other_map d) k = None <-> forall j v, ((k, j), v) ∉ d) /\
  NoDup (Py.dict_keys (build_other_map d)).
Proof.
  destruct (other_map_lookup d k) as [H1 H2].
  split; [by rewrite H1, row_of_filter|]. split; [|apply build_other_map_NoDup].
  rewrite H2, row_of_filter. split.
  - intros E j v Hin.
    assert (((k, j), v) ∈ filter (fun e : coord * Z => e.1.1 = k) d) as Hf
      by (by apply list_elem_of_filter).
    apply (list_elem_of_fmap_2 (fun e : coord * Z => (e.1.2, e.2))) in Hf.
    rewrite E in Hf. by apply elem_of_nil in Hf.
  - intros Hno. destruct (filter _ d) as [|[[r c] v] l] eqn:F; [done|].
    assert (((r, c), v) ∈ filter (fun e : coord * Z => e.1.1 = k) d) as Hf
      by (rewrite F; left).
    apply list_elem_of_filter in Hf as [Hr Hin]. simpl in Hr. subst r.
    by apply Hno in Hin.
Qed.

(** ** [__str__] *)

Lemma tuple_le_antisymm : AntiSymm eq Py.tuple_le.
Proof.
  intros [a1 a2] [b1 b2]. unfold Py.tuple_le. simpl. intros H1 H2.
  f_equal; lia.
Qed.

Lemma sorted_Permutation l1 l2 : l1 ≡ₚ l2 -> Py.sorted l1 = Py.sorted l2.
Proof.
  intros P. unfold Py.sorted.
  apply (@StronglySorted_unique _ Py.tuple_le tuple_le_antisymm).
  - apply StronglySorted_merge_sort; apply _.
  - apply StronglySorted_merge_sort; apply _.
  - by rewrite !merge_sort_Permutation.
Qed.

Lemma sorted_entries_Permutation_eq d1 d2 :
  NoDup (Py.dict_keys d1) -> d1 ≡ₚ d2 -> sorted_entries d1 = sorted_entries d2.
Proof.
  intros N P. unfold sorted_entries.
  rewrite (sorted_Permutation (Py.dict_keys d1) (Py.dict_keys d2))
    by (unfold Py.dict_keys; by rewrite P).
  apply list_fmap_ext. intros i k _. f_equal. by apply vget_Permutation.
Qed.

(** X12. The text of a matrix does not depend on the order in which its
    entries were inserted: two matrices with the same extents and the same
    stored entries have the same [str]. *)
Theorem str_is_canonical (h : heap) (a b : ref) (A B : SparseMatrix) :
  h !! a = Some A -> h !! b = Some B -> unique_keys A ->
  rows A = rows B -> cols A = cols B -> data A ≡ₚ data B ->
  __str__ a h = __str__ b h.
Proof.
  intros Ea Eb NA SR SC P. rewrite (str_run _ _ _ Ea), (str_run _ _ _ Eb).
  by rewrite SR, SC, (sorted_entries_Permutation_eq (data A) (data B)).
Qed.

Lemma str_is_canonical_witness :
  __str__ 0%nat [ex_I; mkSparseMatrix 2 2 [((0, 0), 1); ((1, 1), 1)]] =
  __str__ 1%nat [ex_I; mkSparseMatrix 2 2 [((0, 0), 1); ((1, 1), 1)]].
Proof.
  apply (str_is_canonical _ 0%nat 1%nat ex_I (mkSparseMatrix 2 2 [((0, 0), 1); ((1, 1), 1)]));
    [reflexivity|reflexivity|compute_done|reflexivity|reflexivity|].
  apply Permutation_swap.
Defined.

Lemma load_serialized_run (h : heap) (m : SparseMatrix) :
  valid m ->
  load_from (Text (serialized (rows m) (cols m) (sorted_entries (data m)))) h =
  (Ok (length h), h ++ [mkSparseMatrix (rows m) (cols m) (sorted_entries (data m))]).
Proof.
  intros (N & B & NZ).
  pose proof (sorted_entries_Permutation (data m) N) as P.
  assert (Forall (fun e : coord * Z => 0 <= e.1.1 < rows m /\ 0 <= e.1.2 < cols m)
            (sorted_entries (data m))) as B' by (by rewrite P).
  assert (Forall (fun e : coord * Z => e.2 <> 0) (sorted_entries (data m))) as NZ'
    by (by rewrite P).
  assert (NoDup (Py.dict_keys (sorted_entries (data m)))) as N'.
  { unfold Py.dict_keys. by rewrite P. }
  destruct (load_data_format (rows m) (cols m) (sorted_entries (data m)) [] B')
    as [L1 L2].
  rewrite (load_from_run h _ ("rows=" +:+ Py.str (rows m)) ("cols=" +:+ Py.str (cols m))
             ((fun e : coord * Z => format_entry e.1.1 e.1.2 e.2)
                <$> sorted_entries (data m)) (rows m) (cols m)).
  - rewrite L1, L2. by rewrite copy_into_fresh.
  - unfold serialized. apply surviving_lines_join.
    apply Forall_cons. split; [by apply clean_header|].
    apply Forall_cons. split; [by apply clean_header|].
    apply Forall_fmap, Forall_forall. intros e _. apply clean_entry.
  - unfold Py.startswith. simpl. apply prefix_nil.
  - unfold Py.startswith. simpl. apply prefix_nil.
  - by apply (header_int_str "rows").
  - by apply (header_int_str "cols").
Qed.

(** X13. [str] tells valid matrices apart: if two valid matrices have the
    same text, they have the same extents and the same stored entries. *)
Theorem str_is_injective (h : heap) (a b : ref) (A B : SparseMatrix) (txt : string) :
  h !! a = Some A -> h !! b = Some B -> valid A -> valid B ->
  __str__ a h = (Ok txt, h) -> __str__ b h = (Ok txt, h) ->
  rows A = rows B /\ cols A = cols B /\ data A ≡ₚ data B.
Proof.
  intros Ea Eb VA VB SA SB.
  rewrite (str_run _ _ _ Ea) in SA. rewrite (str_run _ _ _ Eb) in SB.
  injection SA as SA. injection SB as SB.
  pose proof (load_serialized_run h A VA) as LA.
  pose proof (load_serialized_run h B VB) as LB.
  rewrite SA in LA. rewrite SB, LA in LB.
  injection LB as LB. apply app_inv_head in LB. injection LB as HR HC HD.
  split; [done|]. split; [done|].
  rewrite <- (sorted_entries_Permutation (data A)) by apply VA.
  rewrite <- (sorted_entries_Permutation (data B)) by apply VB.
  by rewrite HD.
Qed.

Lemma str_is_injective_witness :
  data ex_I ≡ₚ [((0, 0), 1); ((1, 1), 1)].
Proof.
  eapply (str_is_injective [ex_I; mkSparseMatrix 2 2 [((0, 0), 1); ((1, 1), 1)]]
            0%nat 1%nat ex_I (mkSparseMatrix 2 2 [((0, 0), 1); ((1, 1), 1)]));
    [reflexivity|reflexivity|compute_done|compute_done|reflexivity|reflexivity].
Defined.



(** ** [load_from] *)

Lemma load_from_cases src (h : heap) :
  (exists e, load_from src h = (Raise e, h) /\
             (e = MalformedHeader \/ exists msg, e = SourceUnavailable msg)) \/
  (exists R C body,
     load_from src h =
     (if forallb (entry_ok R C) body then Ok (length h) else Raise MalformedEntry,
      h ++ [mkSparseMatrix R C (load_data R C [] body)])).
Proof.
  destruct src as [e|txt]; [left; eexists; split; [done|right; by eexists]|].
  destruct (surviving_lines txt) as [|l0 [|l1 body]] eqn:E;
    try (left; eexists; split; [unfold load_from; by rewrite E|by left]).
  destruct (Py.startswith l0 "rows=") eqn:S0;
    [|left; eexists; split; [unfold load_from; by rewrite E, S0|by left]].
  destruct (Py.startswith l1 "cols=") eqn:S1;
    [|left; eexists; split; [unfold load_from; by rewrite E, S0, S1|by left]].
  destruct (header_int l0) as [R|] eqn:HR;
    [|left; eexists; split; [unfold load_from; by rewrite E, S0, S1, HR|by left]].
  destruct (header_int l1) as [C|] eqn:HC;
    [|left; eexists; split; [unfold load_from; by rewrite E, S0, S1, HR, HC|by left]].
  right. exists R, C, body. by apply (load_from_run h txt l0 l1 body R C).
Qed.

(** X15. Whatever the source, [load_from] either returns a new object
    that is a valid matrix (unique keys, entries in bounds and non-zero), or
    raises one of its own three exceptions (the open failure, the header
    [ValueError], the body-line [ValueError]), never the [IndexError] of
    [set]; in both cases every matrix that existed is unchanged. *)
Theorem load_from_outcomes (src : source) (h : heap) :
  (forall r, (load_from src h).1 = Ok r ->
     r = length h /\ exists m, (load_from src h).2 = h ++ [m] /\ valid m) /\
  (forall e, (load_from src h).1 = Raise e ->
     e = MalformedHeader \/ e = MalformedEntry \/ exists msg, e = SourceUnavailable msg) /\
  (forall o m, h !! o = Some m -> (load_from src h).2 !! o = Some m).
Proof.
  destruct (load_from_cases src h) as [(e & -> & He)|(R & C & body & ->)]; simpl.
  - split; [done|]. split; [|done]. intros e' [= <-]. tauto.
  - split; [|split].
    + destruct (forallb _ _); [|done]. intros r [= <-]. split; [done|].
      eexists. split; [done|]. apply load_data_valid, valid_new.
    + destruct (forallb _ _); [done|]. intros e [= <-]. tauto.
    + intros o m. apply lookup_old_object.
Qed.

Lemma load_data_app R C d pre post :
  forallb (entry_ok R C) pre = true ->
  load_data R C d (pre ++ post) = load_data R C (load_data R C d pre) post.
Proof.
  revert d. induction pre as [|e pre IH]; intros d Hok; [done|]. simpl in *.
  unfold entry_ok in Hok at 1.
  destruct (entry_triple R C e) as [[[r c] v]|]; [|done]. by apply IH.
Qed.

Lemma load_data_NoDup R C body d :
  NoDup (Py.dict_keys d) -> NoDup (Py.dict_keys (load_data R C d body)).
Proof.
  revert d. induction body as [|e body IH]; intros d N; simpl; [done|].
  destruct (entry_triple R C e) as [[[r c] v]|]; [|done].
  by apply IH, store_set_NoDup.
Qed.

Lemma load_data_untouched R C body d k :
  NoDup (Py.dict_keys d) ->
  (forall e v, e ∈ body -> parse_triple e <> Some (k.1, k.2, v)) ->
  vget (load_data R C d body) k = vget d k.
Proof.
  revert d. induction body as [|e body IH]; intros d N Hno; simpl; [done|].
  destruct (entry_triple R C e) as [[[r c] v]|] eqn:E; [|done].
  rewrite IH; [| by apply store_set_NoDup | intros e' v' He'; apply Hno; by right].
  rewrite vget_store_set by done. case_decide as Hk; [|done]. subst k.
  destruct (Hno e v); [left|]. unfold entry_triple in E.
  destruct (_ && _); [|done].
  destruct (parse_triple e) as [[[r' c'] v']|]; [|done].
  destruct (_ && _); [|done]. by injection E as -> -> ->.
Qed.

(** X16. When a file is accepted and several body lines give the same
    coordinate, the last one wins: if a line parses to (r, c, v) and no
    later line has the coordinate (r, c), the loaded matrix has
    [get(r, c) == v] (so a later value 0 erases the entry); a coordinate that
    no line gives reads 0. *)
Theorem load_last_line_wins (h : heap) (txt l0 l1 : string) (pre post : list string)
    (entry : string) (r c v : Z) :
  surviving_lines txt = l0 :: l1 :: pre ++ entry :: post ->
  (load_from (Text txt) h).1 = Ok (length h) ->
  parse_triple entry = Some (r, c, v) ->
  (forall e v', e ∈ post -> parse_triple e <> Some (r, c, v')) ->
  exists m,
    (load_from (Text txt) h).2 = h ++ [m] /\ mget m r c = v /\
    (forall r' c',
       (forall e v', e ∈ pre ++ entry :: post -> parse_triple e <> Some (r', c', v')) ->
       mget m r' c' = 0).
Proof.
  intros E Hok Hp Hpost.
  assert (exists R C,
    load_from (Text txt) h =
      (Ok (length h),
       h ++ [mkSparseMatrix R C (load_data R C [] (pre ++ entry :: post))]) /\
    forallb (entry_ok R C) (pre ++ entry :: post) = true) as (R' & C' & L & F).
  { unfold load_from in *. rewrite E in *.
    destruct (negb _ || negb _); [done|].
    destruct (header_int l0) as [R'|]; [|done].
    destruct (header_int l1) as [C'|]; [|done].
    exists R', C'. unfold bind at 1 in Hok. unfold bind at 1. unfold __init__ in *.
    unfold bind at 1 in Hok. unfold bind at 1. rewrite load_loop_run in *.
    destruct (forallb _ _); [done|]. simpl in Hok. done. }
  rewrite L. simpl. eexists. split; [done|]. unfold mget. simpl.
  rewrite forallb_app in F. apply andb_true_iff in F as [Fpre F].
  simpl in F. apply andb_true_iff in F as [Fe Fpost].
  split.
  - rewrite load_data_app by done. simpl.
    unfold entry_ok in Fe. destruct (entry_triple R' C' entry) as [[[r1 c1] v1]|] eqn:T;
      [|done].
    assert ((r1, c1, v1) = (r, c, v)) as [= -> -> ->].
    { unfold entry_triple in T. destruct (_ && _); [|done]. rewrite Hp in T.
      destruct (_ && _); [|done]. by injection T as -> -> ->. }
    rewrite (load_data_untouched R' C' post _ (r, c)).
    + rewrite vget_store_set by apply load_data_NoDup, NoDup_nil_2.
      by rewrite decide_True.
    + apply store_set_NoDup, load_data_NoDup, NoDup_nil_2.
    + done.
  - intros r' c' Hno.
    rewrite (load_data_untouched R' C' _ [] (r', c')); [done|apply NoDup_nil_2|done].
Qed.

Lemma load_last_line_wins_witness :
  exists m,
    (load_from (Text ("rows=2" +:+ nl +:+ "cols=2" +:+ nl +:+ "(0, 1, 7)" +:+ nl
                      +:+ "(1, 1, 4)" +:+ nl +:+ "(0, 1, 0)")) []).2 = [m] /\
    mget m 0 1 = 0.
Proof.
  destruct (load_last_line_wins []
              ("rows=2" +:+ nl +:+ "cols=2" +:+ nl +:+ "(0, 1, 7)" +:+ nl
               +:+ "(1, 1, 4)" +:+ nl +:+ "(0, 1, 0)")
              "rows=2" "cols=2" ["(0, 1, 7)"; "(1, 1, 4)"] [] "(0, 1, 0)" 0 1 0)
    as (m & E & G & _); [reflexivity|reflexivity|reflexivity| |by exists m].
  intros e v' He. by apply elem_of_nil in He.
Defined.

#[local] Arguments String.append !s1 s2 : simpl nomatch.

Lemma readlines_not_nil s : s <> EmptyString -> Py.readlines s <> [].
Proof.
  destruct s as [|c s]; [done|]. intros _. simpl.
  destruct (Ascii.eqb c Py.newline); [done|].
  destruct s; [done|]. by destruct (Py.readlines _).
Qed.

Lemma surviving_lines_space c rest :
  Py.isspace c = true -> surviving_lines (String c rest) = surviving_lines rest.
Proof.
  intros Hc. unfold surviving_lines. simpl.
  destruct (Ascii.eqb_spec c Py.newline) as [->|Hn].
  - rewrite fmap_cons, filter_cons. by rewrite decide_False by (intros H; by apply H).
  - destruct rest as [|c' rest'].
    + simpl. rewrite filter_cons, decide_False; [done|].
      intros H. apply H. unfold Py.strip. simpl. by rewrite Hc.
    + pose proof (readlines_not_nil (String c' rest') ltac:(done)) as Hne.
      destruct (Py.readlines (String c' rest')) as [|line more]; [done|].
      rewrite !fmap_cons. f_equal. f_equal. unfold Py.strip. simpl. by rewrite Hc.
Qed.

Lemma surviving_lines_spaces w rest :
  chars_all Py.isspace w = true -> surviving_lines (w +:+ rest) = surviving_lines rest.
Proof.
  induction w as [|c w IH]; simpl; [done|].
  rewrite andb_true_iff. intros [Hc Hw]. rewrite surviving_lines_space by done. auto.
Qed.

Lemma readlines_after_newline t s :
  Py.readlines (t +:+ String Py.newline s) =
  Py.readlines (t +:+ String Py.newline EmptyString) ++ Py.readlines s.
Proof.
  induction t as [|c t IH]; simpl; [done|].
  destruct (Ascii.eqb c Py.newline); [by rewrite IH|].
  rewrite IH.
  pose proof (readlines_not_nil (t +:+ String Py.newline EmptyString)
                ltac:(by destruct t)) as Hne.
  destruct (Py.readlines (t +:+ String Py.newline EmptyString)); [done|].
  by destruct t.
Qed.

Lemma surviving_lines_after_newline t s :
  surviving_lines (t +:+ String Py.newline s) =
  surviving_lines (t +:+ String Py.newline EmptyString) ++ surviving_lines s.
Proof.
  unfold surviving_lines. by rewrite readlines_after_newline, fmap_app, filter_app.
Qed.

Lemma lstrip_by_snoc sp s c :
  sp c = true ->
  Py.lstrip_by sp (s +:+ String c EmptyString) =
  match Py.lstrip_by sp s with
  | EmptyString => EmptyString
  | t => t +:+ String c EmptyString
  end.
Proof.
  intros Hc. induction s as [|a s IH]; simpl; [by rewrite Hc|].
  destruct (sp a); [done|done].
Qed.

Lemma strip_snoc_space s c :
  Py.isspace c = true -> Py.strip (s +:+ String c EmptyString) = Py.strip s.
Proof.
  intros Hc. unfold Py.strip. rewrite lstrip_by_snoc by done.
  destruct (Py.lstrip_by Py.isspace s) eqn:E; [done|].
  by rewrite rstrip_by_space_end.
Qed.

Lemma readlines_snoc_newline t :
  t <> EmptyString ->
  exists pre x,
    Py.readlines t = pre ++ [x] /\
    (Py.readlines (t +:+ nl) = pre ++ [x; nl] \/
     Py.readlines (t +:+ nl) = pre ++ [x +:+ nl]).
Proof.
  induction t as [|c t IH]; [done|]. intros _.
  destruct t as [|c' t'].
  - exists [], (String c EmptyString). simpl.
    destruct (Ascii.eqb c Py.newline); [split; [done|by left]|split; [done|by right]].
  - destruct IH as (pre & x & E1 & E2); [done|].
    change (String c (String c' t') +:+ nl) with (String c (String c' t' +:+ nl)).
    remember (String c' t') as u eqn:Hu.
    assert (u +:+ nl <> EmptyString) as Hne by (subst u; done).
    simpl. destruct (Ascii.eqb c Py.newline).
    + exists (String c EmptyString :: pre), x. rewrite E1. split; [done|].
      destruct E2 as [-> | ->]; [by left|by right].
    + assert (forall l : list string,
        match u with
        | EmptyString => [String c EmptyString]
        | String _ _ => match l with
                        | [] => [String c EmptyString]
                        | line :: rest => String c line :: rest
                        end
        end = match l with
              | [] => [String c EmptyString]
              | line :: rest => String c line :: rest
              end) as Hu1 by (subst u; done).
      assert (forall l : list string,
        match u +:+ nl with
        | EmptyString => [String c EmptyString]
        | String _ _ => match l with
                        | [] => [String c EmptyString]
                        | line :: rest => String c line :: rest
                        end
        end = match l with
              | [] => [String c EmptyString]
              | line :: rest => String c line :: rest
              end) as Hu2 by (intros l; destruct (u +:+ nl); done).
      rewrite Hu1, Hu2, E1. destruct pre as [|p pre].
      * exists [], (String c x). split; [done|].
        destruct E2 as [-> | ->]; [by left|by right].
      * exists (String c p :: pre), x. split; [done|].
        destruct E2 as [-> | ->]; [by left|by right].
Qed.

Lemma surviving_lines_final_newline t : surviving_lines (t +:+ nl) = surviving_lines t.
Proof.
  destruct t as [|c t]; [done|].
  destruct (readlines_snoc_newline (String c t)) as (pre & x & E1 & [E2|E2]); [done|..];
    unfold surviving_lines; rewrite E1, E2, !fmap_app, !filter_app; f_equal;
    rewrite !fmap_cons, !fmap_nil.
  unfold nl. by rewrite strip_snoc_space.
Qed.

(** X17. Blank lines, indentation and a final newline do not matter to
    [load_from]: white space inserted at the start of the text or right
    after any newline, and a newline added at the end of the text, leave the
    outcome and the loaded matrix the same. *)
Theorem load_ignores_blank_space (h : heap) (t1 w t2 : string) :
  chars_all Py.isspace w = true ->
  load_from (Text (w +:+ t2)) h = load_from (Text t2) h /\
  load_from (Text (t1 +:+ nl +:+ w +:+ t2)) h = load_from (Text (t1 +:+ nl +:+ t2)) h /\
  load_from (Text (t1 +:+ nl)) h = load_from (Text t1) h.
Proof.
  intros Hw. unfold load_from. split; [|split].
  - rewrite (surviving_lines_spaces w t2 Hw). reflexivity.
  - change (t1 +:+ nl +:+ w +:+ t2) with (t1 +:+ String Py.newline (w +:+ t2)).
    change (t1 +:+ nl +:+ t2) with (t1 +:+ String Py.newline t2).
    rewrite (surviving_lines_after_newline t1 (w +:+ t2)).
    rewrite (surviving_lines_after_newline t1 t2).
    rewrite (surviving_lines_spaces w t2 Hw). reflexivity.
  - rewrite (surviving_lines_final_newline t1). reflexivity.
Qed.

Lemma load_ignores_blank_space_witness :
  load_from (Text ("rows=1" +:+ nl +:+ (nl +:+ "   ") +:+ "cols=1")) [] =
  load_from (Text ("rows=1" +:+ nl +:+ "cols=1")) [].
Proof.
  apply (load_ignores_blank_space [] "rows=1" (nl +:+ "   ") "cols=1"). reflexivity.
Defined.









(** ** The interactive session *)

Section SessionFacts.

Variable FS : Type.
Variable read_file : FS -> string -> source.
Variable open_write : FS -> string -> FS * option string.
Variable write_close : FS -> string -> string -> FS * option string.

#[local] Abbreviation session := (interactive_session FS read_file open_write write_close).
#[local] Abbreviation operands := (load_operands FS read_file).

Lemma valid_action_test action :
  negb (String.eqb action "1" || String.eqb action "2" || String.eqb action "3") = false
  <-> valid_action action.
Proof.
  unfold valid_action. rewrite negb_false_iff, !orb_true_iff, !String.eqb_eq. tauto.
Qed.

(** The session up to the point where the operands are loaded. *)
Lemma session_after_operands (w : world FS) l0 l1 l2 rest :
  stdin w = l0 :: l1 :: l2 :: rest -> valid_action (Py.strip l0) ->
  session w =
  let w3 := mkWorld rest (stdout w ++ menu_lines ++ operand_prompts) (disk w) in
  match operands (disk w) (Py.strip l1) (Py.strip l2) [] with
  | (Raise err, _) => (Returns, print ("Error reading matrix: " +:+ exn_str err) w3)
  | (Ok (A, B), h) =>
      match operate (Py.strip l0) A B h with
      | (Raise err, _) => (Returns, print ("Operation error: " +:+ exn_str err) w3)
      | (Ok result, h) =>
          match input "Save result to file? (y/n): " w3 with
          | (None, w) => (UncaughtEOFError, w)
          | (Some line3, w) =>
              if String.eqb (lower (Py.strip line3)) "y" then
                match input "Output file path: " w with
                | (None, w) => (UncaughtEOFError, w)
                | (Some line4, w) =>
                    (Returns, save_result FS open_write write_close result h
                                (Py.strip line4) w)
                end
              else show_result FS result h w
          end
      end
  end.
Proof.
  intros E Ha. apply valid_action_test in Ha. destruct w as [inp out d].
  simpl in E. subst inp.
  unfold interactive_session, print_menu, input, print. simpl. rewrite Ha.
  unfold menu_lines, operand_prompts. simpl. by rewrite <- !(assoc_L (++)).
Qed.

Lemma operands_valid d f1 f2 A B (h : heap) :
  operands d f1 f2 [] = (Ok (A, B), h) -> Forall valid h.
Proof.
  unfold load_operands, bind.
  pose proof (exec_valid (Call_load_from (read_file d f1)) [] (Forall_nil_2 _)) as V1.
  simpl in V1. destruct (load_from (read_file d f1) []) as [[a|e] h1]; [|done].
  pose proof (exec_valid (Call_load_from (read_file d f2)) h1 V1) as V2.
  simpl in V2. destruct (load_from (read_file d f2) h1) as [[b|e] h2]; [|done].
  by intros [= <- <- <-].
Qed.




(** X21. When loading an operand fails, the session prints
    [Error reading matrix: ] followed by the message of the failure, which
    is the open failure, [Input file has wrong format] or
    [Invalid file format]; it then returns without asking anything more and
    without touching the file system. *)
Theorem session_reports_load_failure (w : world FS) (l0 l1 l2 : string)
    (rest : list string) (err : exn) (h : heap) :
  stdin w = l0 :: l1 :: l2 :: rest -> valid_action (Py.strip l0) ->
  operands (disk w) (Py.strip l1) (Py.strip l2) [] = (Raise err, h) ->
  session w =
    (Returns,
     mkWorld rest
       (stdout w ++ menu_lines ++ operand_prompts
          ++ ["Error reading matrix: " +:+ exn_str err +:+ nl])
       (disk w)) /\
  (exn_str err = "Input file has wrong format" \/
   exn_str err = "Invalid file format" \/
   exists e, exn_str err = "Failed to open file: " +:+ e).
Proof.
  intros E Ha L. rewrite (session_after_operands _ l0 l1 l2 rest E Ha). simpl.
  rewrite L. unfold print. simpl. split; [by rewrite <- !(assoc_L (++))|].
  assert (forall src (h0 h1 : heap) e, load_from src h0 = (Raise e, h1) ->
            e = MalformedHeader \/ e = MalformedEntry \/
            exists msg, e = SourceUnavailable msg) as Hload.
  { intros src h0 h1 e El.
    destruct (load_from_cases src h0) as [(e' & E' & He')|(R & C & body & E')];
      rewrite E' in El.
    - injection El as <- _. tauto.
    - destruct (forallb _ _); [done|]. injection El as <- _. tauto. }
  unfold load_operands, bind in L.
  destruct (load_from (read_file (disk w) (Py.strip l1)) []) as [[a|e] h1] eqn:L1.
  - destruct (load_from (read_file (disk w) (Py.strip l2)) h1) as [[b|e] h2] eqn:L2;
      [done|]. injection L as <- _.
    destruct (Hload _ _ _ _ L2) as [->|[->|[msg ->]]]; [by left|by right; left|].
    right; right. by exists msg.
  - injection L as <- _.
    destruct (Hload _ _ _ _ L1) as [->|[->|[msg ->]]]; [by left|by right; left|].
    right; right. by exists msg.
Qed.

(** X22. When both matrices load but their shapes do not fit the selected
    operation (different shapes for [1] and [2], [A.cols != B.rows] for
    [3]), the session prints [Operation error: ] followed by the message of
    the dimension check and returns, without asking anything more and
    without touching the file system. *)
Theorem session_reports_dimension_failure (w : world FS) (l0 l1 l2 : string)
    (rest : list string) (a b : ref) (h : heap) (A B : SparseMatrix) :
  stdin w = l0 :: l1 :: l2 :: rest -> valid_action (Py.strip l0) ->
  operands (disk w) (Py.strip l1) (Py.strip l2) [] = (Ok (a, b), h) ->
  h !! a = Some A -> h !! b = Some B ->
  (if String.eqb (Py.strip l0) "3" then cols A <> rows B else ~ same_shape A B) ->
  session w =
    (Returns,
     mkWorld rest
       (stdout w ++ menu_lines ++ operand_prompts
          ++ ["Operation error: " +:+ dimension_message (Py.strip l0) +:+ nl])
       (disk w)).
Proof.
  intros E Ha L Ea Eb Hbad. rewrite (session_after_operands _ l0 l1 l2 rest E Ha).
  simpl. rewrite L. unfold operate, dimension_message.
  destruct Ha as [Ha|[Ha|Ha]]; rewrite Ha in *; simpl in *.
  - rewrite (add_mismatch h a b A B) by done. unfold print. simpl.
    by rewrite <- !(assoc_L (++)).
  - rewrite (sub_mismatch h a b A B) by done. unfold print. simpl.
    by rewrite <- !(assoc_L (++)).
  - rewrite (matmul_mismatch h a b A B) by done. unfold print. simpl.
    by rewrite <- !(assoc_L (++)).
Qed.



(** Both operands of the session are the two objects of the heap, and
    both satisfy the invariant. *)
Lemma operands_loaded d f1 f2 a b (h : heap) :
  operands d f1 f2 [] = (Ok (a, b), h) ->
  exists A B, h !! a = Some A /\ h !! b = Some B /\ valid A /\ valid B.
Proof.
  intros L. pose proof (operands_valid _ _ _ _ _ _ L) as V.
  unfold load_operands, bind in L.
  destruct (load_from_cases (read_file d f1) []) as [(e & E & _)|(R & C & body & E)];
    rewrite E in L; [done|].
  destruct (forallb (entry_ok R C) body); [|done]. simpl in L.
  destruct (load_from_cases (read_file d f2) [mkSparseMatrix R C (load_data R C [] body)])
    as [(e & E2 & _)|(R2 & C2 & body2 & E2)]; rewrite E2 in L; [done|].
  destruct (forallb (entry_ok R2 C2) body2); [|done]. simpl in L.
  injection L as <- <- <-.
  exists (mkSparseMatrix R C (load_data R C [] body)),
         (mkSparseMatrix R2 C2 (load_data R2 C2 [] body2)).
  split; [done|]. split; [done|].
  split; [apply (Forall_lookup_1 _ _ 0%nat _ V)|apply (Forall_lookup_1 _ _ 1%nat _ V)];
    done.
Qed.

(** X25. Conversely, on loaded operands the operation of the session can
    fail only on its dimension check: when it fails, the shapes do not fit
    the selected operation and the session prints [Operation error: ] with
    the message of that check. *)
Theorem session_operation_fails_only_on_dimensions (w : world FS)
    (l0 l1 l2 : string) (rest : list string) (a b : ref) (h h' : heap) (err : exn) :
  stdin w = l0 :: l1 :: l2 :: rest -> valid_action (Py.strip l0) ->
  operands (disk w) (Py.strip l1) (Py.strip l2) [] = (Ok (a, b), h) ->
  operate (Py.strip l0) a b h = (Raise err, h') ->
  exists A B,
    h !! a = Some A /\ h !! b = Some B /\
    (if String.eqb (Py.strip l0) "3" then cols A <> rows B else ~ same_shape A B) /\
    session w =
      (Returns,
       mkWorld rest
         (stdout w ++ menu_lines ++ operand_prompts
            ++ ["Operation error: " +:+ dimension_message (Py.strip l0) +:+ nl])
         (disk w)).
Proof.
  intros E Ha L O.
  destruct (operands_loaded _ _ _ _ _ _ L) as (A & B & Ea & Eb & VA & VB).
  exists A, B. split; [done|]. split; [done|].
  rewrite (session_after_operands _ l0 l1 l2 rest E Ha). simpl. rewrite L, O.
  destruct VA as (_ & BA & _), VB as (_ & BB & _).
  unfold operate, dimension_message in *.
  destruct Ha as [Ha|[Ha|Ha]]; rewrite Ha in *; simpl in *.
  - destruct (decide (same_shape A B)) as [S|S].
    + by rewrite (add_run h a b A B) in O.
    + rewrite (add_mismatch h a b A B) in O by done. injection O as <- _.
      split; [done|]. unfold print. simpl. by rewrite <- !(assoc_L (++)).
  - destruct (decide (same_shape A B)) as [S|S].
    + by rewrite (sub_run h a b A B) in O.
    + rewrite (sub_mismatch h a b A B) in O by done. injection O as <- _.
      split; [done|]. unfold print. simpl. by rewrite <- !(assoc_L (++)).
  - destruct (decide (cols A = rows B)) as [S|S].
    + by rewrite (matmul_run h a b A B) in O.
    + rewrite (matmul_mismatch h a b A B) in O by done. injection O as <- _.
      split; [done|]. unfold print. simpl. by rewrite <- !(assoc_L (++)).
Qed.

End SessionFacts.

Lemma session_reports_load_failure_witness :
  (interactive_session ex_fs ex_read ex_open_write ex_write_close
     (ex_world ["1"; "none.txt"; "p.txt"])).1 = Returns.
Proof.
  destruct (session_reports_load_failure ex_fs ex_read ex_open_write ex_write_close
              (ex_world ["1"; "none.txt"; "p.txt"]) "1" "none.txt" "p.txt" []
              (SourceUnavailable "[Errno 2] No such file or directory") [])
    as [E _]; [reflexivity|by left|reflexivity|by rewrite E].
Defined.

Lemma session_reports_dimension_failure_witness :
  (interactive_session ex_fs ex_read ex_open_write ex_write_close
     (ex_world ["3"; "p.txt"; "row.txt"])).1 = Returns.
Proof.
  by rewrite (session_reports_dimension_failure ex_fs ex_read ex_open_write
                ex_write_close (ex_world ["3"; "p.txt"; "row.txt"])
                "3" "p.txt" "row.txt" [] 0%nat 1%nat
                [ex_P; mkSparseMatrix 1 2 [((0, 1), 5)]]
                ex_P (mkSparseMatrix 1 2 [((0, 1), 5)])
                eq_refl (or_intror (or_intror eq_refl)) eq_refl eq_refl eq_refl
                ltac:(compute_done)).
Defined.

Lemma session_operation_fails_only_on_dimensions_witness :
  exists A B, cols A <> rows B /\
    [ex_P; mkSparseMatrix 1 2 [((0, 1), 5)]] !! 0%nat = Some A /\
    [ex_P; mkSparseMatrix 1 2 [((0, 1), 5)]] !! 1%nat = Some B.
Proof.
  destruct (session_operation_fails_only_on_dimensions ex_fs ex_read ex_open_write
              ex_write_close (ex_world ["3"; "p.txt"; "row.txt"])
              "3" "p.txt" "row.txt" [] 0%nat 1%nat
              [ex_P; mkSparseMatrix 1 2 [((0, 1), 5)]]
              [ex_P; mkSparseMatrix 1 2 [((0, 1), 5)]]
              DimensionAlignmentMismatch)
    as (A & B & Ea & Eb & S & _); [reflexivity|by right; right|reflexivity|reflexivity|].
  by exists A, B.
Defined.


